(** * Context resolution and prompt budgeting of the disease-term translators

    A shallow embedding of the two translation drivers of the repository,

    - [translation_disaese.py]  (the stand-alone script, module [Script]),
    - [disaese_server.py]       (the batch server, module [Server]),

    restricted to the part that decides which reference paragraph accompanies
    a term and how that paragraph is cut to the token budget.  Spreadsheets
    are lists of rows, Python strings are lists of code points, the tokenizer
    and the language model are parameters, and the messages the code prints
    or logs are kept as a trace.  Volume numbers of the control table
    are NumPy [int64] scalars: the distance of the nearest-volume search
    wraps as theirs does. *)

From Stdlib Require Import ZArith NArith List Bool String Ascii Lia.
From Stdlib Require Import Sorting.Sorted Sorting.Permutation.
Import ListNotations.

Set Implicit Arguments.

(* ================================================================== *)
(** ** Python values *)
(* ================================================================== *)

Module Py.

(** A Python [str] is a sequence of Unicode code points; indexing, slicing
    and [startswith] count code points, not bytes. *)
Definition codepoint := N.
Definition pystr := list codepoint.

Local Open Scope N_scope.

(** Source literals are written as UTF-8 text and decoded to code points.
    Ill-formed input decodes to U+FFFD; no literal of this file is. *)
Definition cont (b : N) : N := N.land b 63.

Fixpoint utf8_decode (bs : list N) : pystr :=
  match bs with
  | [] => []
  | b :: r1 =>
      if b <? 128 then b :: utf8_decode r1
      else if b <? 224 then
        match r1 with
        | c1 :: r2 => (N.shiftl (N.land b 31) 6 + cont c1) :: utf8_decode r2
        | [] => [65533]
        end
      else if b <? 240 then
        match r1 with
        | c1 :: c2 :: r3 =>
            (N.shiftl (N.land b 15) 12 + N.shiftl (cont c1) 6 + cont c2)
              :: utf8_decode r3
        | _ => [65533]
        end
      else
        match r1 with
        | c1 :: c2 :: c3 :: r4 =>
            (N.shiftl (N.land b 7) 18 + N.shiftl (cont c1) 12
             + N.shiftl (cont c2) 6 + cont c3) :: utf8_decode r4
        | _ => [65533]
        end
  end.

Definition py (s : string) : pystr :=
  utf8_decode (map N_of_ascii (list_ascii_of_string s)).

(** [s.encode('utf-8')], as the list of its bytes. *)
Definition utf8_encode_char (c : codepoint) : list N :=
  if c <? 128 then [c]
  else if c <? 2048 then [192 + N.shiftr c 6; 128 + cont c]
  else if c <? 65536 then
    [224 + N.shiftr c 12; 128 + cont (N.shiftr c 6); 128 + cont c]
  else
    [240 + N.shiftr c 18; 128 + cont (N.shiftr c 12);
     128 + cont (N.shiftr c 6); 128 + cont c].

Definition utf8_encode (s : pystr) : list N := flat_map utf8_encode_char s.

(** Line feed, for the ["\n"] of the source literals. *)
Definition nl : pystr := [10].

Fixpoint pystr_eqb (a b : pystr) : bool :=
  match a, b with
  | [], [] => true
  | x :: a', y :: b' => (x =? y) && pystr_eqb a' b'
  | _, _ => false
  end.

(** [s.startswith(p)] *)
Fixpoint startswith (p s : pystr) : bool :=
  match p, s with
  | [], _ => true
  | x :: p', y :: s' => (x =? y) && startswith p' s'
  | _ :: _, [] => false
  end.

(** [str.isspace] of one character: the code points Python's [strip()]
    removes when called without argument. *)
Definition isspace (c : codepoint) : bool :=
  ((9 <=? c) && (c <=? 13)) || ((28 <=? c) && (c <=? 32))
  || (c =? 133) || (c =? 160) || (c =? 5760)
  || ((8192 <=? c) && (c <=? 8202))
  || (c =? 8232) || (c =? 8233) || (c =? 8239) || (c =? 8287)
  || (c =? 12288).

(** [not s.strip()]: nothing is left once the white space is trimmed. *)
Definition blank (s : pystr) : bool := forallb isspace s.

Local Close Scope N_scope.
Local Open Scope Z_scope.

(** [l[:k]].  A negative [k] counts from the end: [l[:-2]] drops the last
    two elements, and gives the empty list when there are fewer. *)
Definition slice_to (A : Type) (k : Z) (l : list A) : list A :=
  if 0 <=? k then firstn (Z.to_nat k) l
  else firstn (Z.to_nat (Z.of_nat (List.length l) + k)) l.

(** [Series.unique()]: the distinct values, in order of first appearance. *)
Fixpoint unique (l : list Z) : list Z :=
  match l with
  | [] => []
  | x :: t => x :: filter (fun y => negb (y =? x)) (unique t)
  end.

(** [sorted(...)] on integers, ascending. *)
Fixpoint insert (x : Z) (l : list Z) : list Z :=
  match l with
  | [] => [x]
  | y :: t => if x <=? y then x :: y :: t else y :: insert x t
  end.

Fixpoint sorted (l : list Z) : list Z :=
  match l with
  | [] => []
  | x :: t => insert x (sorted t)
  end.

(** Exceptions the modelled code can raise. *)
Inductive exn := ValueError | OverflowError | FileNotFoundError.

(** NumPy's [int64]: the range, and the value a result is wrapped to. *)
Definition int64_min : Z := - 2 ^ 63.
Definition int64_max : Z := 2 ^ 63 - 1.

Definition in_int64 (z : Z) : bool := (int64_min <=? z) && (z <=? int64_max).

Definition wrap64 (z : Z) : Z := (z + 2 ^ 63) mod 2 ^ 64 - 2 ^ 63.

(** [x - v] for an [int64] scalar [x] and a Python integer [v], as NumPy 2
    computes it: the integer is converted to [int64], which raises
    [OverflowError] when it does not fit, and the difference wraps. *)
Definition int64_sub (x v : Z) : exn + Z :=
  if in_int64 v then inr (wrap64 (x - v)) else inl OverflowError.

(** [abs] of an [int64] scalar; it wraps at the least value. *)
Definition int64_abs (x : Z) : Z := wrap64 (Z.abs x).

(** [min(l, key=key)]: one pass that keeps the current best item and
    replaces it only by a strictly smaller key, so the first of several
    minimal items wins; [ValueError] on an empty sequence. *)
Fixpoint min_from (A : Type) (key : A -> Z) (best : A) (l : list A) : A :=
  match l with
  | [] => best
  | x :: t => if key x <? key best then min_from key x t
              else min_from key best t
  end.

Definition min_key (A : Type) (key : A -> Z) (l : list A) : exn + A :=
  match l with
  | [] => inl ValueError
  | x :: t => inr (min_from key x t)
  end.

(** [min(l)] and [max(l)] on integers; [ValueError] on an empty list. *)
Definition min_list (l : list Z) : exn + Z := min_key (fun x => x) l.

Definition max_list (l : list Z) : exn + Z :=
  match l with
  | [] => inl ValueError
  | x :: t => inr (fold_left Z.max t x)
  end.

(** [l[0]] and [l[-1]]; [None] stands for the [IndexError] of an empty
    list. *)
Definition first_item (A : Type) (l : list A) : option A := hd_error l.

Fixpoint last_item (A : Type) (l : list A) : option A :=
  match l with
  | [] => None
  | [x] => Some x
  | _ :: t => last_item t
  end.

End Py.
Import Py.

Open Scope Z_scope.
Open Scope list_scope.

(* ================================================================== *)
(** ** Spreadsheets *)
(* ================================================================== *)

(** One row of the control file: columns [no], [section] and
    [disease_content].  A content cell that pandas loaded as NaN is [None];
    the others hold text.  The [no] column is an integer column, which
    pandas loads as [int64]: its cells are integers that fit, as
    [int64_table] says where a statement depends on it.  A control file with
    a blank [no] cell, which pandas loads as a float column, is not
    covered. *)
Record ControlRecord := {
  no : Z;
  section : pystr;
  disease_content : option pystr
}.

(** One row of a [classified_section_...] file: columns [disease] and
    [section]. *)
Record TargetRow := {
  disease : option pystr;
  target_section : option pystr
}.

(** What [pd.read_excel] is given for one control row: the text of the
    content cell, or [None] for a blank cell. *)
Record SheetRow := {
  cell_no : Z;
  cell_section : pystr;
  cell_content : option pystr
}.

(** The strings [pd.read_excel] reads as NaN with its default arguments
    (pandas' default NA markers); a blank cell reaches this filter as the
    empty string. *)
Definition na_values : list pystr :=
  map py [""; "#N/A"; "#N/A N/A"; "#NA"; "-1.#IND"; "-1.#QNAN"; "-NaN";
          "-nan"; "1.#IND"; "1.#QNAN"; "<NA>"; "N/A"; "NA"; "NULL"; "NaN";
          "None"; "n/a"; "nan"; "null"]%string.

Definition read_cell (c : option pystr) : option pystr :=
  let text := match c with Some s => s | None => [] end in
  if existsb (pystr_eqb text) na_values then None else Some text.

(** [pd.read_excel(control_file)] *)
Definition read_excel (sheet : list SheetRow) : list ControlRecord :=
  map (fun r => {| no := cell_no r; section := cell_section r;
                   disease_content := read_cell (cell_content r) |}) sheet.

(** [df[df['no'] == volume_no]] *)
Definition rows_of_volume (control_df : list ControlRecord) (volume_no : Z)
  : list ControlRecord :=
  filter (fun r => no r =? volume_no) control_df.

(** [df[(df['no'] == volume_no) & (df['section'] == section)]] *)
Definition rows_of_key (control_df : list ControlRecord) (volume_no : Z)
  (sec : pystr) : list ControlRecord :=
  filter (fun r => (no r =? volume_no) && pystr_eqb (section r) sec)
         control_df.

(** [target_df[target_df['disease'].notna() & target_df['section'].notna()]],
    as the (term, section) pairs the row loop reads. *)
Definition valid_rows (target_df : list TargetRow) : list (pystr * pystr) :=
  flat_map (fun r => match disease r, target_section r with
                     | Some term, Some sec => [(term, sec)]
                     | _, _ => []
                     end) target_df.

(** [sorted(control_df['no'].unique())] *)
Definition available_volumes_of (control_df : list ControlRecord) : list Z :=
  sorted (unique (map no control_df)).

(** [abs(x - volume_no)], the key of the nearest-volume search, for a
    volume [x] of the table, an [int64] scalar, and a [volume_no] that fits
    [int64]: both the difference and its absolute value wrap. *)
Definition distance (volume_no x : Z) : Z :=
  int64_abs (wrap64 (x - volume_no)).

(** [min(available_volumes, key=lambda x: abs(x - volume_no))]:
    [ValueError] on an empty list; otherwise the key of the first item
    already raises [OverflowError] when [volume_no] does not fit [int64]. *)
Definition nearest_of (volume_no : Z) (available_volumes : list Z) : exn + Z :=
  match available_volumes with
  | [] => inl ValueError
  | x :: _ =>
      match int64_sub x volume_no with
      | inl e => inl e
      | inr _ => min_key (distance volume_no) available_volumes
      end
  end.

(* ================================================================== *)
(** ** External services and the trace *)
(* ================================================================== *)

Definition token := Z.

(** The Hugging Face tokenizer: [encode] and [decode] (the latter with
    [skip_special_tokens=True]). *)
Class Tokenizer := {
  encode : pystr -> list token;
  decode : list token -> pystr
}.

(** The local model: the chat template applied to a prompt, and the reply
    generated for the resulting ids (already decoded and stripped; the
    failure message when generation raises). *)
Class LocalModel := {
  apply_chat_template : pystr -> list token;
  generate : list token -> pystr
}.

(** Warnings and errors the drivers print or log, and the calls they make to
    the budgeter and to the model, in the order they happen. *)
Inductive Event :=
| FallbackLevel1 (volume_no : Z) (sec actual_section_used : pystr)
| FallbackLevel2 (volume_no nearest_volume : Z) (actual_section_used : pystr)
| NoContextFound (term sec : pystr)
| NoVolumeAvailable (term : pystr)
| ContextEmpty (volume_no : Z) (actual_section_used term : pystr)
| CallTruncate (context_paragraph term : pystr)
| ContextTooLong (context_tokens available_tokens : Z)
| SequenceTooLong (sequence_length limit : Z)
| CallGenerate (full_prompt : pystr)
| FallbackSummary (level1_count level2_count : nat).

(** Which branch of the lookup produced the context row. *)
Inductive Resolution :=
| Exact (context_row : ControlRecord)
| SameVolume (context_row : ControlRecord)
| NearestVolume (nearest_volume : Z) (context_row : ControlRecord)
| NoContext
| NoVolumes.

Definition usedFallbackLevel (r : Resolution) : option nat :=
  match r with
  | Exact _ => Some 0%nat
  | SameVolume _ => Some 1%nat
  | NearestVolume _ _ => Some 2%nat
  | NoContext | NoVolumes => None
  end.

Definition context_row_of (r : Resolution) : option ControlRecord :=
  match r with
  | Exact row | SameVolume row | NearestVolume _ row => Some row
  | NoContext | NoVolumes => None
  end.

Definition actualVolumeUsed (volume_no : Z) (r : Resolution) : option Z :=
  match r with
  | Exact _ | SameVolume _ => Some volume_no
  | NearestVolume nearest_volume _ => Some nearest_volume
  | NoContext | NoVolumes => None
  end.

Definition actualSectionUsed (sec : pystr) (r : Resolution) : option pystr :=
  match r with
  | Exact _ => Some sec
  | SameVolume row | NearestVolume _ row => Some (section row)
  | NoContext | NoVolumes => None
  end.

(** [context_row.iloc[0]['disease_content']]; [None] also when it is NaN. *)
Definition contextParagraph (r : Resolution) : option pystr :=
  match context_row_of r with
  | Some row => disease_content row
  | None => None
  end.

(** An exception caught by a driver and reported, [except Exception as e]. *)
Inductive Report := ProcessingError (e : exn).

(* ================================================================== *)
(** ** The stand-alone script, [translation_disaese.py] *)
(* ================================================================== *)

Module Script.

(** One dictionary appended to [translation_results]; the fields are the
    columns 卷號, 章節, 原始文本, 翻譯結果, 使用回退 and 實際章節. *)
Record TranslationRecord := {
  rec_volume : Z;
  rec_section : pystr;
  rec_original : pystr;
  rec_translated : pystr;
  rec_fallback_used : bool;
  rec_actual_section : pystr
}.

Record Run := {
  translation_results : list TranslationRecord;
  trace : list Event;
  reports : list Report
}.

Section Driver.
Context {tokenizer : Tokenizer} {model : LocalModel}.

Definition prompt_intro : pystr :=
  py "我會先提供一段參考上下文，請你先理解它。然後，我會給你一段中醫文本，請你根據上下文的風格和知識，將文本翻譯成白話文。".
Definition context_begin : pystr := py "--- 上下文開始 ---".
Definition context_end : pystr := py "--- 上下文結束 ---".
Definition prompt_request : pystr :=
  py "現在，請將以下這段文本根據上文翻譯成白話文，請只輸出翻譯結果就好：".

(** The f-string of [truncate_context_if_needed]: the prompt without any
    context line. *)
Definition base_prompt (term : pystr) : pystr :=
  prompt_intro ++ nl ++ nl
  ++ context_begin ++ nl
  ++ context_end ++ nl ++ nl
  ++ prompt_request ++ nl
  ++ py "「" ++ term ++ py "」".

(** The f-string of [main]. *)
Definition full_prompt_of (truncated_context term : pystr) : pystr :=
  prompt_intro ++ nl ++ nl
  ++ context_begin ++ nl
  ++ truncated_context ++ nl
  ++ context_end ++ nl ++ nl
  ++ prompt_request ++ nl
  ++ py "「" ++ term ++ py "」".

Definition default_max_tokens : Z := 3800.

Definition truncate_context_if_needed (context_paragraph term : pystr)
  (max_tokens : Z) : pystr * list Event :=
  let base_tokens := Z.of_nat (List.length (encode (base_prompt term))) in
  let available_tokens := max_tokens - base_tokens in
  let context_tokens := Z.of_nat (List.length (encode context_paragraph)) in
  if context_tokens <=? available_tokens then (context_paragraph, [])
  else
    let context_token_ids := encode context_paragraph in
    let truncated_token_ids := slice_to available_tokens context_token_ids in
    (decode truncated_token_ids,
     [ContextTooLong context_tokens available_tokens]).

Definition execute_translation_prompt (full_prompt : pystr)
  : pystr * list Event :=
  let input_ids := apply_chat_template full_prompt in
  let sequence_length := Z.of_nat (List.length input_ids) in
  (generate input_ids,
   (if 4096 <? sequence_length then [SequenceTooLong sequence_length 4096]
    else []) ++ [CallGenerate full_prompt]).

(** Lines 193-227 of [main]: the choice of [context_row]. *)
Definition resolve (control_df : list ControlRecord) (volume_no : Z)
  (sec : pystr) : exn + Resolution :=
  match rows_of_key control_df volume_no sec with
  | context_row :: _ => inr (Exact context_row)
  | [] =>
      match rows_of_volume control_df volume_no with
      | context_row :: _ => inr (SameVolume context_row)
      | [] =>
          let available_volumes := available_volumes_of control_df in
          match available_volumes with
          | [] => inr NoVolumes
          | _ :: _ =>
              match nearest_of volume_no available_volumes with
              | inl e => inl e
              | inr nearest_volume =>
                  match rows_of_volume control_df nearest_volume with
                  | context_row :: _ =>
                      inr (NearestVolume nearest_volume context_row)
                  | [] => inr NoContext
                  end
              end
          end
      end
  end.

(** What the lookup prints. *)
Definition resolution_log (volume_no : Z) (term sec : pystr)
  (r : Resolution) : list Event :=
  match r with
  | Exact _ => []
  | SameVolume row => [FallbackLevel1 volume_no sec (section row)]
  | NearestVolume nearest_volume row =>
      [FallbackLevel2 volume_no nearest_volume (section row)]
  | NoContext => [NoContextFound term sec]
  | NoVolumes => [NoVolumeAvailable term]
  end.

(** [fallback_used] after the lookup. *)
Definition fallback_used_of (r : Resolution) : bool :=
  match r with
  | SameVolume _ | NearestVolume _ _ => true
  | _ => false
  end.

(** The body of the row loop, lines 185-258: the events of this row and the
    record appended, if any ([None] is a [continue]). *)
Definition process_row (control_df : list ControlRecord) (volume_no : Z)
  (term sec : pystr) : exn + (list Event * option TranslationRecord) :=
  if blank term || blank sec then inr ([], None)
  else
    match resolve control_df volume_no sec with
    | inl e => inl e
    | inr r =>
        let printed := resolution_log volume_no term sec r in
        match context_row_of r, actualSectionUsed sec r with
        | Some context_row, Some actual_section_used =>
            let fallback_used := fallback_used_of r in
            match disease_content context_row with
            | None =>
                inr (printed ++ [ContextEmpty volume_no actual_section_used term],
                     None)
            | Some context_paragraph =>
                let '(truncated_context, cut) :=
                  truncate_context_if_needed context_paragraph term
                                             default_max_tokens in
                let full_prompt := full_prompt_of truncated_context term in
                let '(translated_text, ran) :=
                  execute_translation_prompt full_prompt in
                inr (printed ++ [CallTruncate context_paragraph term]
                       ++ cut ++ ran,
                     Some {| rec_volume := volume_no;
                             rec_section := sec;
                             rec_original := term;
                             rec_translated := translated_text;
                             rec_fallback_used := fallback_used;
                             rec_actual_section :=
                               if fallback_used then actual_section_used
                               else sec |})
            end
        | _, _ => inr (printed, None)
        end
    end.

(** The row loop of one file inside its [try]: an exception ends the file,
    is printed, and leaves what was appended so far in place. *)
Fixpoint process_rows (control_df : list ControlRecord) (volume_no : Z)
  (rows : list (pystr * pystr)) (run : Run) : Run :=
  match rows with
  | [] => run
  | (term, sec) :: rest =>
      match process_row control_df volume_no term sec with
      | inl e =>
          {| translation_results := translation_results run;
             trace := trace run;
             reports := reports run ++ [ProcessingError e] |}
      | inr (events, appended) =>
          process_rows control_df volume_no rest
            {| translation_results :=
                 translation_results run
                 ++ match appended with Some r => [r] | None => [] end;
               trace := trace run ++ events;
               reports := reports run |}
      end
  end.

Definition process_file (control_df : list ControlRecord) (volume_no : Z)
  (target_df : list TargetRow) (run : Run) : Run :=
  process_rows control_df volume_no (valid_rows target_df) run.

(** [main], from the loaded control sheet and the target files found, keyed
    by volume number. *)
Definition main (control_sheet : list SheetRow)
  (target_files_map : list (Z * list TargetRow)) : Run :=
  let control_df := read_excel control_sheet in
  let available_nos := map fst target_files_map in
  let control_df :=
    filter (fun r => existsb (Z.eqb (no r)) available_nos) control_df in
  fold_left (fun run file => process_file control_df (fst file) (snd file) run)
            target_files_map
            {| translation_results := []; trace := []; reports := [] |}.

(** Step 5 of [main], the volume range in the name of the report: nothing
    when no term was translated, else the first and the last of the sorted
    distinct volume numbers of the records. *)
Definition report_range (results : list TranslationRecord)
  : option (option Z * option Z) :=
  match results with
  | [] => None
  | _ :: _ =>
      let volumes := sorted (unique (map rec_volume results)) in
      Some (first_item volumes, last_item volumes)
  end.

End Driver.
End Script.

(* ================================================================== *)
(** ** The batch server, [disaese_server.py] *)
(* ================================================================== *)

Module Server.

(** The entries of [config.yaml] the translation reads.  The template is
    used only through [str.format] with its two fields. *)
Record Config := {
  max_context_tokens : Z;
  max_sequence_length : Z;
  prompt_template : pystr -> pystr -> pystr
}.

(** One dictionary appended to [translation_results]: the columns 卷號,
    章節, 原始文本 and 翻譯結果. *)
Record TranslationRecord := {
  rec_volume : Z;
  rec_section : pystr;
  rec_original : pystr;
  rec_translated : pystr
}.

(** The local variables of [_process_file_core_translation] that live across
    rows, and what has been logged. *)
Record CoreState := {
  translation_results : list TranslationRecord;
  fallback_used : bool;
  actual_volume_used : Z;
  fallback_level1_count : nat;
  fallback_level2_count : nat;
  trace : list Event
}.

Inductive Status := success | warning | error | partial_success.

(** The dictionary [process_file_translation_for_merge] returns, without
    its message; [file_trace] is what the file logged. *)
Record FileResult := {
  status : Status;
  file_results : list TranslationRecord;
  file_fallback_used : bool;
  file_actual_volume_used : option Z;
  file_trace : list Event;
  file_reports : list Report
}.


Section Driver.
Context {tokenizer : Tokenizer} {model : LocalModel}.
Variable config : Config.

Definition truncate_context_if_needed (context_paragraph term : pystr)
  : pystr * list Event :=
  let max_tokens := max_context_tokens config in
  let base_prompt := prompt_template config [] term in
  let base_tokens := Z.of_nat (List.length (encode base_prompt)) in
  let available_tokens := max_tokens - base_tokens in
  let context_tokens := Z.of_nat (List.length (encode context_paragraph)) in
  if context_tokens <=? available_tokens then (context_paragraph, [])
  else
    let context_token_ids := encode context_paragraph in
    let truncated_token_ids := slice_to available_tokens context_token_ids in
    (decode truncated_token_ids,
     [ContextTooLong context_tokens available_tokens]).

Definition execute_translation_prompt (full_prompt : pystr)
  : pystr * list Event :=
  let input_ids := apply_chat_template full_prompt in
  let sequence_length := Z.of_nat (List.length input_ids) in
  let max_seq_length := max_sequence_length config in
  (generate input_ids,
   (if max_seq_length <? sequence_length
    then [SequenceTooLong sequence_length max_seq_length] else [])
   ++ [CallGenerate full_prompt]).

(** Truth value of a string: it is not empty. *)
Definition truthy (s : pystr) : bool :=
  match s with [] => false | _ :: _ => true end.

(** Lines 318-324: the leading 治療 or 治 is cut off the term. *)
Definition remove_leading_treatment (term : pystr) : pystr :=
  if truthy term && startswith (py "治療") term then skipn 2 term
  else if truthy term && startswith (py "治") term then skipn 1 term
  else term.

(** Lines 331-363: the choice of [context_row].  There is no test that
    [available_volumes] has an element before [min] is called. *)
Definition resolve (control_df : list ControlRecord) (volume_no : Z)
  (sec : pystr) : exn + Resolution :=
  match rows_of_key control_df volume_no sec with
  | context_row :: _ => inr (Exact context_row)
  | [] =>
      match rows_of_volume control_df volume_no with
      | context_row :: _ => inr (SameVolume context_row)
      | [] =>
          let available_volumes := available_volumes_of control_df in
          match nearest_of volume_no available_volumes with
          | inl e => inl e
          | inr nearest_volume =>
              match rows_of_volume control_df nearest_volume with
              | context_row :: _ =>
                  inr (NearestVolume nearest_volume context_row)
              | [] => inr NoContext
              end
          end
      end
  end.

(** The assignments and log lines of the branch taken. *)
Definition note_resolution (volume_no : Z) (term sec : pystr)
  (r : Resolution) (st : CoreState) : CoreState :=
  match r with
  | Exact _ => st
  | SameVolume row =>
      {| translation_results := translation_results st;
         fallback_used := true;
         actual_volume_used := actual_volume_used st;
         fallback_level1_count := S (fallback_level1_count st);
         fallback_level2_count := fallback_level2_count st;
         trace := trace st ++ [FallbackLevel1 volume_no sec (section row)] |}
  | NearestVolume nearest_volume row =>
      {| translation_results := translation_results st;
         fallback_used := true;
         actual_volume_used := nearest_volume;
         fallback_level1_count := fallback_level1_count st;
         fallback_level2_count := S (fallback_level2_count st);
         trace := trace st
                  ++ [FallbackLevel2 volume_no nearest_volume (section row)] |}
  | NoContext | NoVolumes =>
      {| translation_results := translation_results st;
         fallback_used := fallback_used st;
         actual_volume_used := actual_volume_used st;
         fallback_level1_count := fallback_level1_count st;
         fallback_level2_count := fallback_level2_count st;
         trace := trace st ++ [NoContextFound term sec] |}
  end.

Definition log_events (events : list Event) (st : CoreState) : CoreState :=
  {| translation_results := translation_results st;
     fallback_used := fallback_used st;
     actual_volume_used := actual_volume_used st;
     fallback_level1_count := fallback_level1_count st;
     fallback_level2_count := fallback_level2_count st;
     trace := trace st ++ events |}.

Definition append_result (r : TranslationRecord) (st : CoreState)
  : CoreState :=
  {| translation_results := translation_results st ++ [r];
     fallback_used := fallback_used st;
     actual_volume_used := actual_volume_used st;
     fallback_level1_count := fallback_level1_count st;
     fallback_level2_count := fallback_level2_count st;
     trace := trace st |}.

(** The body of the row loop, lines 315-389.  [inl] is an exception that
    leaves the loop, with the state it leaves behind. *)
Definition process_row (control_df : list ControlRecord) (volume_no : Z)
  (st : CoreState) (row_term sec : pystr) : exn * CoreState + CoreState :=
  let term := remove_leading_treatment row_term in
  if blank term || blank sec then inr st
  else
    match resolve control_df volume_no sec with
    | inl e => inl (e, st)
    | inr r =>
        let st := note_resolution volume_no term sec r st in
        match context_row_of r, actualSectionUsed sec r with
        | Some context_row, Some actual_section_used =>
            match disease_content context_row with
            | None =>
                inr (log_events
                       [ContextEmpty volume_no actual_section_used term] st)
            | Some context_paragraph =>
                let '(truncated_context, cut) :=
                  truncate_context_if_needed context_paragraph term in
                let full_prompt :=
                  prompt_template config truncated_context term in
                let '(translated_text, ran) :=
                  execute_translation_prompt full_prompt in
                inr (append_result
                       {| rec_volume := volume_no;
                          rec_section := sec;
                          rec_original := term;
                          rec_translated := translated_text |}
                       (log_events
                          ([CallTruncate context_paragraph term] ++ cut ++ ran)
                          st))
            end
        | _, _ => inr st
        end
    end.

Fixpoint process_rows (control_df : list ControlRecord) (volume_no : Z)
  (rows : list (pystr * pystr)) (st : CoreState)
  : exn * CoreState + CoreState :=
  match rows with
  | [] => inr st
  | (term, sec) :: rest =>
      match process_row control_df volume_no st term sec with
      | inl raised => inl raised
      | inr st' => process_rows control_df volume_no rest st'
      end
  end.

Definition initial_state (volume_no : Z) : CoreState :=
  {| translation_results := [];
     fallback_used := false;
     actual_volume_used := volume_no;
     fallback_level1_count := 0;
     fallback_level2_count := 0;
     trace := [] |}.

(** [_process_file_core_translation]: the dictionary it returns is the final
    state, after the fallback summary has been logged when a fallback was
    counted; an exception is logged and raised again. *)
Definition process_file_core_translation (control_df : list ControlRecord)
  (volume_no : Z) (target_df : list TargetRow)
  : exn * CoreState + CoreState :=
  match process_rows control_df volume_no (valid_rows target_df)
                     (initial_state volume_no) with
  | inl raised => inl raised
  | inr st =>
      if (0 <? fallback_level1_count st)%nat
         || (0 <? fallback_level2_count st)%nat
      then inr (log_events
                  [FallbackSummary (fallback_level1_count st)
                                   (fallback_level2_count st)] st)
      else inr st
  end.

(** [process_file_translation_for_merge] from line 433 on, once the volume
    number is taken from the file name and the file is read with its two
    columns.  An exception of the core is logged by the core and by this
    function. *)
Definition process_file_translation_for_merge
  (control_df : list ControlRecord) (volume_no : Z)
  (target_df : list TargetRow) : FileResult :=
  match process_file_core_translation control_df volume_no target_df with
  | inr st =>
      {| status := if fallback_used st then warning else success;
         file_results := translation_results st;
         file_fallback_used := fallback_used st;
         file_actual_volume_used :=
           Some (if fallback_used st then actual_volume_used st
                 else volume_no);
         file_trace := trace st;
         file_reports := [] |}
  | inl (e, st) =>
      {| status := error;
         file_results := [];
         file_fallback_used := false;
         file_actual_volume_used := None;
         file_trace := trace st;
         file_reports := [ProcessingError e; ProcessingError e] |}
  end.



(** What [process_all_files] has at its end. *)
Record Batch := {
  all_translation_results : list TranslationRecord;
  volume_numbers : list Z;
  error_count : nat;
  warning_count : nat;
  batch_trace : list Event;
  batch_reports : list Report
}.

Definition add_file (volume_no : Z) (result : FileResult) (b : Batch)
  : Batch :=
  match status result with
  | error =>
      {| all_translation_results := all_translation_results b;
         volume_numbers := volume_numbers b;
         error_count := S (error_count b);
         warning_count := warning_count b;
         batch_trace := batch_trace b ++ file_trace result;
         batch_reports := batch_reports b ++ file_reports result |}
  | st =>
      {| all_translation_results :=
           all_translation_results b ++ file_results result;
         volume_numbers := volume_numbers b ++ [volume_no];
         error_count := error_count b;
         warning_count :=
           match st with warning => S (warning_count b)
                       | _ => warning_count b end;
         batch_trace := batch_trace b ++ file_trace result;
         batch_reports := batch_reports b ++ file_reports result |}
  end.

(** The file loop of [process_all_files]: every file is processed, whatever
    happened to the ones before it. *)
Definition process_all_files (control_df : list ControlRecord)
  (files : list (Z * list TargetRow)) : Batch :=
  fold_left
    (fun b file =>
       add_file (fst file)
         (process_file_translation_for_merge control_df (fst file) (snd file))
         b)
    files
    {| all_translation_results := []; volume_numbers := [];
       error_count := 0; warning_count := 0;
       batch_trace := []; batch_reports := [] |}.

Definition overall_status (b : Batch) : Status :=
  let success_count := (List.length (volume_numbers b) - warning_count b)%nat in
  if (error_count b =? 0)%nat && (warning_count b =? 0)%nat then success
  else if (error_count b =? 0)%nat then warning
  else if (0 <? success_count)%nat then partial_success else error.

(** The name [generate_merged_output] gives the merged report: the single
    format with the one volume, or the batch format with the least and the
    greatest volume. *)
Inductive OutputName :=
| SingleName (vol : Z)
| BatchName (min_vol max_vol : Z).

(** [generate_merged_output]: the name and the rows written, or the
    exception its [except] catches and logs. *)
Definition generate_merged_output
  (all_results : list TranslationRecord) (volumes : list Z)
  : exn + (OutputName * list TranslationRecord) :=
  match volumes with
  | [vol] => inr (SingleName vol, all_results)
  | _ =>
      match min_list volumes with
      | inl e => inl e
      | inr min_vol =>
          match max_list volumes with
          | inl e => inl e
          | inr max_vol => inr (BatchName min_vol max_vol, all_results)
          end
      end
  end.

(** The end of [process_all_files]: the merged report is generated only
    when some translation was collected. *)
Definition merged_output (b : Batch)
  : option (exn + (OutputName * list TranslationRecord)) :=
  match all_translation_results b with
  | [] => None
  | _ :: _ =>
      Some (generate_merged_output (all_translation_results b)
                                   (volume_numbers b))
  end.

(** The overall status [process_all_files] logs; with no file found it
    returns before computing one. *)
Definition batch_status (control_df : list ControlRecord)
  (files : list (Z * list TargetRow)) : option Status :=
  match files with
  | [] => None
  | _ :: _ => Some (overall_status (process_all_files control_df files))
  end.

(** The dictionary [process_file_translation] returns, without its message:
    [output_rows] is the report written under the single-file name. *)
Record SingleResult := {
  single_status : Status;
  translated_terms : nat;
  output_rows : option (list TranslationRecord);
  fallback_context_volume : option Z;
  single_trace : list Event;
  single_reports : list Report
}.

(** [process_file_translation], once the file is read. *)
Definition process_file_translation (control_df : list ControlRecord)
  (volume_no : Z) (target_df : list TargetRow) : SingleResult :=
  match process_file_core_translation control_df volume_no target_df with
  | inr st =>
      match translation_results st with
      | [] =>
          {| single_status := warning;
             translated_terms := 0;
             output_rows := None;
             fallback_context_volume := None;
             single_trace := trace st;
             single_reports := [] |}
      | _ :: _ =>
          {| single_status := if fallback_used st then warning else success;
             translated_terms := List.length (translation_results st);
             output_rows := Some (translation_results st);
             fallback_context_volume :=
               if fallback_used st then Some (actual_volume_used st)
               else None;
             single_trace := trace st;
             single_reports := [] |}
      end
  | inl (e, st) =>
      {| single_status := error;
         translated_terms := 0;
         output_rows := None;
         fallback_context_volume := None;
         single_trace := trace st;
         single_reports := [ProcessingError e; ProcessingError e] |}
  end.

End Driver.
End Server.

(* ================================================================== *)
(** ** Vocabulary of the statements *)
(* ================================================================== *)

(** [row] is the first row of [df], in table order, that satisfies [P]. *)
Definition FirstWith (P : ControlRecord -> Prop) (df : list ControlRecord)
  (row : ControlRecord) : Prop :=
  exists before after,
    df = before ++ row :: after /\ P row /\ Forall (fun r => ~ P r) before.

Definition has_key (volume_no : Z) (sec : pystr) (r : ControlRecord) : Prop :=
  no r = volume_no /\ section r = sec.

Definition has_volume (volume_no : Z) (r : ControlRecord) : Prop :=
  no r = volume_no.

(** The content cell holds a text, and the text is not the empty string. *)
Definition nonempty_content (r : ControlRecord) : Prop :=
  exists c, disease_content r = Some c /\ c <> [].

(** The exact-match property read literally: whenever some row of the key
    has a non-empty content, the lookup is at level 0 and hands out the
    content of the first such row. *)
Definition exact_match_claim
  (resolve : list ControlRecord -> Z -> pystr -> exn + Resolution) : Prop :=
  forall df volume_no sec row c,
    FirstWith (fun r => has_key volume_no sec r /\ nonempty_content r) df row ->
    disease_content row = Some c ->
    exists r, resolve df volume_no sec = inr r
              /\ usedFallbackLevel r = Some 0%nat
              /\ contextParagraph r = Some c.

(** Small tables for the worked cases. *)
Definition record (volume_no : Z) (sec content : string) : ControlRecord :=
  {| no := volume_no; section := py sec; disease_content := Some (py content) |}.

Definition blank_record (volume_no : Z) (sec : string) : ControlRecord :=
  {| no := volume_no; section := py sec; disease_content := None |}.

Definition intro_table : list ControlRecord :=
  [record 1 "intro" "foo"].

Definition other_volume_table : list ControlRecord :=
  [record 5 "a" "bar"].

Definition blank_then_foo_table : list ControlRecord :=
  [blank_record 1 "intro"; record 1 "intro" "foo"].

Definition tie_table : list ControlRecord :=
  [record 7 "late" "seven"; record 3 "early" "three"].

(** [tokenCount(text)], the length of the encoding. *)
Definition tokenCount {tokenizer : Tokenizer} (text : pystr) : Z :=
  Z.of_nat (List.length (encode text)).

(** The two budgeters behind one name: the script's takes its limit as an
    argument, the server's reads it, and the template, from the
    configuration. *)
Inductive Budgeter :=
| ScriptBudgeter (max_tokens : Z)
| ServerBudgeter (config : Server.Config).

Definition maxTokens (b : Budgeter) : Z :=
  match b with
  | ScriptBudgeter max_tokens => max_tokens
  | ServerBudgeter config => Server.max_context_tokens config
  end.

Definition basePrompt (b : Budgeter) (term : pystr) : pystr :=
  match b with
  | ScriptBudgeter _ => Script.base_prompt term
  | ServerBudgeter config => Server.prompt_template config [] term
  end.

Definition available {tokenizer : Tokenizer} (b : Budgeter) (term : pystr)
  : Z :=
  maxTokens b - tokenCount (basePrompt b term).

Definition truncate {tokenizer : Tokenizer} (b : Budgeter)
  (context_paragraph term : pystr) : pystr * list Event :=
  match b with
  | ScriptBudgeter max_tokens =>
      Script.truncate_context_if_needed context_paragraph term max_tokens
  | ServerBudgeter config =>
      Server.truncate_context_if_needed config context_paragraph term
  end.




(** A tokenizer with one token per code point, a model that answers with its
    prompt, and a small configuration, to run the drivers on examples. *)
Definition char_tokenizer : Tokenizer :=
  {| encode := map Z.of_N; decode := map Z.to_N |}.


Definition echo_model : LocalModel :=
  {| apply_chat_template := map Z.of_N; generate := map Z.to_N |}.

Definition small_template (context_paragraph term : pystr) : pystr :=
  py "Ctx: " ++ context_paragraph ++ nl ++ py "Term:" ++ term.

Definition small_config (max_tokens : Z) : Server.Config :=
  {| Server.max_context_tokens := max_tokens;
     Server.max_sequence_length := 4096;
     Server.prompt_template := small_template |}.

Definition target (term sec : string) : TargetRow :=
  {| disease := Some (py term); target_section := Some (py sec) |}.

(** The section a resolution reports as used, [actual_section_used]. *)
Definition used_section (sec : pystr) (r : Resolution) : pystr :=
  match actualSectionUsed sec r with Some a => a | None => sec end.

(** What a translated row of the script leaves behind: the prompt sent, the
    events in order, and the record appended. *)
Definition script_prompt {tokenizer : Tokenizer} (c term : pystr) : pystr :=
  Script.full_prompt_of
    (fst (Script.truncate_context_if_needed c term Script.default_max_tokens))
    term.

Definition script_events {tokenizer : Tokenizer} {model : LocalModel}
  (volume_no : Z) (term sec : pystr) (r : Resolution) (c : pystr)
  : list Event :=
  Script.resolution_log volume_no term sec r
  ++ [CallTruncate c term]
  ++ snd (Script.truncate_context_if_needed c term Script.default_max_tokens)
  ++ snd (Script.execute_translation_prompt (script_prompt c term)).

Definition script_record {tokenizer : Tokenizer} {model : LocalModel}
  (volume_no : Z) (term sec : pystr) (r : Resolution) (c : pystr)
  : Script.TranslationRecord :=
  {| Script.rec_volume := volume_no;
     Script.rec_section := sec;
     Script.rec_original := term;
     Script.rec_translated :=
       fst (Script.execute_translation_prompt (script_prompt c term));
     Script.rec_fallback_used := Script.fallback_used_of r;
     Script.rec_actual_section :=
       if Script.fallback_used_of r then used_section sec r else sec |}.

(** The same for the server; [term] is the term after the leading 治療 or 治
    has been cut off. *)
Definition server_prompt {tokenizer : Tokenizer} (config : Server.Config)
  (c term : pystr) : pystr :=
  Server.prompt_template config
    (fst (Server.truncate_context_if_needed config c term)) term.

Definition server_events {tokenizer : Tokenizer} {model : LocalModel}
  (config : Server.Config) (c term : pystr) : list Event :=
  [CallTruncate c term]
  ++ snd (Server.truncate_context_if_needed config c term)
  ++ snd (Server.execute_translation_prompt config
            (server_prompt config c term)).

Definition server_record {tokenizer : Tokenizer} {model : LocalModel}
  (config : Server.Config) (volume_no : Z) (term sec c : pystr)
  : Server.TranslationRecord :=
  {| Server.rec_volume := volume_no;
     Server.rec_section := sec;
     Server.rec_original := term;
     Server.rec_translated :=
       fst (Server.execute_translation_prompt config
              (server_prompt config c term)) |}.

(** The calls to the budgeter and to the model among the events. *)
Definition is_call (e : Event) : bool :=
  match e with
  | CallTruncate _ _ | CallGenerate _ => true
  | _ => false
  end.

Definition empty_run : Script.Run :=
  {| Script.translation_results := []; Script.trace := [];
     Script.reports := [] |}.

(** The model calls among the events. *)
Definition is_generate (e : Event) : bool :=
  match e with CallGenerate _ => true | _ => false end.


(** The same for the server, on the term without its leading 治療 or 治. *)
Definition server_row_records {tokenizer : Tokenizer} {model : LocalModel}
  (config : Server.Config) (df : list ControlRecord) (volume_no : Z)
  (row : pystr * pystr) : list Server.TranslationRecord :=
  let term := Server.remove_leading_treatment (fst row) in
  if blank term || blank (snd row) then []
  else match Server.resolve df volume_no (snd row) with
       | inr r =>
           match contextParagraph r with
           | Some c => [server_record config volume_no term (snd row) c]
           | None => []
           end
       | inl _ => []
       end.

(** What the variables of the server's row loop keep true from one row to
    the next, for the file of [volume_no]. *)
Definition core_consistent (df : list ControlRecord) (volume_no : Z)
  (st : Server.CoreState) : Prop :=
  (Server.fallback_used st = true
   <-> (0 < Server.fallback_level1_count st
            + Server.fallback_level2_count st)%nat)
  /\ ((0 < Server.fallback_level1_count st)%nat ->
      rows_of_volume df volume_no <> [])
  /\ ((0 < Server.fallback_level2_count st)%nat ->
      rows_of_volume df volume_no = []
      /\ min_key (distance volume_no) (available_volumes_of df)
         = inr (Server.actual_volume_used st))
  /\ (Server.fallback_level2_count st = 0%nat ->
      Server.actual_volume_used st = volume_no)
  /\ Forall (fun r => Server.rec_volume r = volume_no)
            (Server.translation_results st).

(** A valid row the server does not pass over as blank. *)
Definition server_row_live (row : pystr * pystr) : bool :=
  negb (blank (Server.remove_leading_treatment (fst row)) || blank (snd row)).

Definition status_eqb (a b : Server.Status) : bool :=
  match a, b with
  | Server.success, Server.success | Server.warning, Server.warning
  | Server.error, Server.error
  | Server.partial_success, Server.partial_success => true
  | _, _ => false
  end.

(** The result of one file of a batch, and whether it has a given status. *)
Definition file_result {tokenizer : Tokenizer} {model : LocalModel}
  (config : Server.Config) (df : list ControlRecord)
  (file : Z * list TargetRow) : Server.FileResult :=
  Server.process_file_translation_for_merge config df (fst file) (snd file).

Definition file_has {tokenizer : Tokenizer} {model : LocalModel}
  (config : Server.Config) (df : list ControlRecord) (s : Server.Status)
  (file : Z * list TargetRow) : bool :=
  status_eqb (Server.status (file_result config df file)) s.

(** The control table the script works with: the loaded sheet, cut down to
    the volumes that have a target file. *)
Definition script_control_df (control_sheet : list SheetRow)
  (target_files_map : list (Z * list TargetRow)) : list ControlRecord :=
  filter (fun r => existsb (Z.eqb (no r)) (map fst target_files_map))
         (read_excel control_sheet).

(** The fallback warnings among the events, and the volume a level-2
    warning names as the one used. *)
Definition is_fallback (e : Event) : bool :=
  match e with
  | FallbackLevel1 _ _ _ | FallbackLevel2 _ _ _ => true
  | _ => false
  end.

Definition borrowed_volume_in (volumes : list Z) (e : Event) : Prop :=
  match e with
  | FallbackLevel2 _ nearest_volume _ => In nearest_volume volumes
  | _ => True
  end.

Definition example_record (volume_no : Z) : Script.TranslationRecord :=
  {| Script.rec_volume := volume_no;
     Script.rec_section := py "a";
     Script.rec_original := py "x";
     Script.rec_translated := py "y";
     Script.rec_fallback_used := false;
     Script.rec_actual_section := py "a" |}.


(** The requested volume and the volumes of the table fit [int64], and
    their differences lie strictly inside the [int64] range, so that neither
    the subtraction nor the absolute value of the nearest-volume search
    wraps. *)
Definition no_wrap (volume_no : Z) (df : list ControlRecord) : Prop :=
  in_int64 volume_no = true
  /\ forall r, In r df ->
       in_int64 (no r) = true /\ - 2 ^ 63 < no r - volume_no < 2 ^ 63.


Definition spread_table : list ControlRecord :=
  [record 9 "far" "nine"; record 2 "low" "two"; record 6 "near" "six"].



Unset Implicit Arguments.

(* ================================================================== *)
(** ** Worked examples *)
(* ================================================================== *)

Example py_zhi_liao : py "治療" = [27835%N; 30274%N].
Proof. reflexivity. Qed.

Example py_ascii : py "foo" = [102%N; 111%N; 111%N].
Proof. reflexivity. Qed.

Example slice_negative : slice_to (-2) [1; 2; 3; 4; 5] = [1; 2; 3].
Proof. reflexivity. Qed.

Example sorted_unique : sorted (unique [5; 2; 5; 9; 2]) = [2; 5; 9].
Proof. reflexivity. Qed.

Example utf8_there_and_back :
  utf8_decode (utf8_encode (py "治療 of x")) = py "治療 of x".
Proof. reflexivity. Qed.

Example min_takes_first_of_ties :
  min_key (distance 5) [3; 7; 9] = inr 3
  /\ min_key (distance 5) [7; 3; 9] = inr 7.
Proof. split; reflexivity. Qed.

Example blank_cell_is_nan :
  read_cell None = None /\ read_cell (Some []) = None
  /\ read_cell (Some (py "NA")) = None
  /\ read_cell (Some (py " ")) = Some (py " ").
Proof. repeat split; reflexivity. Qed.

(** The worked cases of the lookup: an exact match, a match of the volume
    only, and a table of another volume. *)
Example lookup_exact :
  Script.resolve intro_table 1 (py "intro")
  = inr (Exact (record 1 "intro" "foo"))
  /\ Server.resolve intro_table 1 (py "intro")
     = inr (Exact (record 1 "intro" "foo")).
Proof. split; reflexivity. Qed.

Example lookup_same_volume :
  Script.resolve intro_table 1 (py "body")
  = inr (SameVolume (record 1 "intro" "foo"))
  /\ actualSectionUsed (py "body") (SameVolume (record 1 "intro" "foo"))
     = Some (py "intro")
  /\ contextParagraph (SameVolume (record 1 "intro" "foo"))
     = Some (py "foo").
Proof. repeat split; reflexivity. Qed.

Example lookup_nearest_volume :
  Server.resolve other_volume_table 2 (py "z")
  = inr (NearestVolume 5 (record 5 "a" "bar"))
  /\ Script.resolve other_volume_table 2 (py "z")
     = inr (NearestVolume 5 (record 5 "a" "bar"))
  /\ contextParagraph (NearestVolume 5 (record 5 "a" "bar"))
     = Some (py "bar").
Proof. repeat split; reflexivity. Qed.

(** A run of the script on one file of volume 1 with two terms: the first
    finds its paragraph at level 1, the second has a blank section cell and
    is not a valid row. *)
Example script_run :
  map (fun r => (Script.rec_original r, Script.rec_fallback_used r,
                 Script.rec_actual_section r))
      (Script.translation_results
         (@Script.main char_tokenizer echo_model
            [{| cell_no := 1; cell_section := py "intro";
                cell_content := Some (py "foo") |};
             {| cell_no := 9; cell_section := py "far";
                cell_content := Some (py "dropped") |}]
            [(1, [target "x" "body";
                  {| disease := Some (py "y"); target_section := None |}])]))
  = [(py "x", true, py "intro")].
Proof. vm_compute. reflexivity. Qed.


(* ================================================================== *)
(** ** Strings and lists *)
(* ================================================================== *)

Lemma pystr_eqb_eq (a b : pystr) : pystr_eqb a b = true <-> a = b.
Proof.
  revert b; induction a as [|x a IH]; intros [|y b]; simpl;
    try (split; [discriminate | intros E; discriminate E]).
  - split; reflexivity.
  - rewrite andb_true_iff, N.eqb_eq, IH.
    split; [intros [-> ->]; reflexivity | intros E; inversion E; auto].
Qed.

Lemma pystr_eqb_refl (a : pystr) : pystr_eqb a a = true.
Proof. apply pystr_eqb_eq; reflexivity. Qed.

Lemma startswith_app (p s : pystr) : startswith p (p ++ s) = true.
Proof.
  induction p as [|x p IH]; simpl; [reflexivity|].
  now rewrite N.eqb_refl, IH.
Qed.

Lemma startswith_prefix (p s : pystr) :
  startswith p s = true -> s = p ++ skipn (List.length p) s.
Proof.
  revert s; induction p as [|x p IH]; intros s H; simpl in *; [reflexivity|].
  destruct s as [|y s]; [discriminate|].
  apply andb_true_iff in H as [Hx Hp]. apply N.eqb_eq in Hx; subst y.
  simpl. f_equal. now apply IH.
Qed.

(** The head of a filtered list is the first element that passes. *)
Lemma filter_head (A : Type) (f : A -> bool) (l : list A) (x : A) (t : list A) :
  filter f l = x :: t ->
  exists before after,
    l = before ++ x :: after /\ f x = true
    /\ Forall (fun y => f y = false) before.
Proof.
  induction l as [|a l IH]; simpl; [discriminate|].
  destruct (f a) eqn:Fa.
  - intros E; inversion E; subst. exists [], l. auto.
  - intros E. destruct (IH E) as (before & after & -> & Fx & Hb).
    exists (a :: before), after. auto.
Qed.

Lemma filter_nil_iff (A : Type) (f : A -> bool) (l : list A) :
  filter f l = [] <-> forall x, In x l -> f x = false.
Proof.
  induction l as [|a l IH]; simpl.
  - split; [intros _ x [] | reflexivity].
  - destruct (f a) eqn:Fa.
    + split; [discriminate|]. intros H.
      specialize (H a (or_introl eq_refl)). congruence.
    + rewrite IH. split.
      * intros H x [<-|Hx]; auto.
      * intros H x Hx. apply H. now right.
Qed.

Lemma filter_first (A : Type) (f : A -> bool) (before after : list A) (x : A) :
  f x = true -> Forall (fun y => f y = false) before ->
  exists t, filter f (before ++ x :: after) = x :: t.
Proof.
  intros Fx Hb. induction Hb as [|a before Fa _ IH]; simpl.
  - rewrite Fx. eauto.
  - rewrite Fa. exact IH.
Qed.

(* ================================================================== *)
(** ** [unique], [sorted] and [min] *)
(* ================================================================== *)

Lemma unique_In (l : list Z) (x : Z) : In x (unique l) <-> In x l.
Proof.
  induction l as [|a l IH]; simpl; [tauto|].
  rewrite filter_In, negb_true_iff, Z.eqb_neq, IH.
  destruct (Z.eq_dec a x); intuition congruence.
Qed.

Lemma unique_NoDup (l : list Z) : NoDup (unique l).
Proof.
  induction l as [|a l IH]; simpl; constructor.
  - rewrite filter_In, negb_true_iff, Z.eqb_neq. intros [_ H]. now apply H.
  - now apply NoDup_filter.
Qed.

Lemma insert_In (x y : Z) (l : list Z) : In y (insert x l) <-> y = x \/ In y l.
Proof.
  induction l as [|a l IH]; simpl.
  - intuition.
  - destruct (x <=? a); simpl; rewrite ?IH; intuition.
Qed.

Lemma sorted_In (l : list Z) (x : Z) : In x (sorted l) <-> In x l.
Proof.
  induction l as [|a l IH]; simpl; [tauto|].
  rewrite insert_In, IH. intuition.
Qed.

Lemma insert_sorted (x : Z) (l : list Z) :
  StronglySorted Z.le l -> StronglySorted Z.le (insert x l).
Proof.
  induction 1 as [|a l Hl IH Ha]; simpl.
  - repeat constructor.
  - destruct (x <=? a) eqn:E.
    + apply Z.leb_le in E. constructor; [now constructor|].
      constructor; [exact E|].
      rewrite Forall_forall in *. intros y Hy. specialize (Ha y Hy). lia.
    + apply Z.leb_gt in E. constructor; [exact IH|].
      rewrite Forall_forall in *. intros y Hy.
      apply insert_In in Hy as [->|Hy]; [lia | auto].
Qed.

Lemma sorted_ascending (l : list Z) : StronglySorted Z.le (sorted l).
Proof.
  induction l as [|a l IH]; simpl; [constructor | now apply insert_sorted].
Qed.

Lemma available_volumes_In (control_df : list ControlRecord) (v : Z) :
  In v (available_volumes_of control_df)
  <-> exists r, In r control_df /\ no r = v.
Proof.
  unfold available_volumes_of. rewrite sorted_In, unique_In, in_map_iff.
  split; intros (r & H1 & H2); exists r; auto.
Qed.

(** In an ascending list, whatever follows an element is not below it. *)
Lemma ascending_after (before after : list Z) (m : Z) :
  StronglySorted Z.le (before ++ m :: after) ->
  forall x, In x after -> m <= x.
Proof.
  induction before as [|a before IH]; simpl; intros H x Hx.
  - inversion H as [|? ? _ Hall]; subst.
    rewrite Forall_forall in Hall. now apply Hall.
  - inversion H; subst. now apply IH.
Qed.

(** [min_from] returns the first item of least key: the items before it
    have a strictly larger key, those after it a key at least as large. *)
Lemma min_from_first (A : Type) (key : A -> Z) (l : list A) (best : A) :
  exists before after,
    best :: l = before ++ min_from key best l :: after
    /\ Forall (fun x => key (min_from key best l) < key x) before
    /\ Forall (fun x => key (min_from key best l) <= key x) after.
Proof.
  revert best. induction l as [|x l IH]; intros best; simpl.
  - exists [], []. auto.
  - destruct (key x <? key best) eqn:E.
    + apply Z.ltb_lt in E.
      destruct (IH x) as (before & after & Heq & Hb & Ha).
      assert (Hm : key (min_from key x l) <= key x).
      { destruct before as [|b before]; simpl in Heq;
          injection Heq as Hx Hl.
        - rewrite <- Hx. lia.
        - subst b. inversion Hb; subst. lia. }
      exists (best :: before), after. simpl. rewrite <- Heq.
      split; [reflexivity|]. split; [|exact Ha].
      constructor; [lia | exact Hb].
    + apply Z.ltb_ge in E.
      destruct (IH best) as (before & after & Heq & Hb & Ha).
      destruct before as [|b before]; simpl in Heq; injection Heq as Hm Hl.
      * assert (Hk : key (min_from key best l) = key best)
          by (now rewrite <- Hm).
        exists [], (x :: after). simpl.
        split; [now rewrite <- Hm, <- Hl|]. split; [constructor|].
        constructor; [lia | exact Ha].
      * subst b. exists (best :: x :: before), after. simpl.
        split; [now rewrite <- Hl|]. split; [|exact Ha].
        inversion Hb; subst. constructor; [assumption|].
        constructor; [lia | assumption].
Qed.

(* ================================================================== *)
(** ** The lookup *)
(* ================================================================== *)

Lemma key_test_iff (volume_no : Z) (sec : pystr) (r : ControlRecord) :
  (no r =? volume_no) && pystr_eqb (section r) sec = true
  <-> has_key volume_no sec r.
Proof.
  unfold has_key. now rewrite andb_true_iff, Z.eqb_eq, pystr_eqb_eq.
Qed.

Lemma test_false_iff (b : bool) (P : Prop) :
  (b = true <-> P) -> (b = false <-> ~ P).
Proof. destruct b; intuition congruence. Qed.

Lemma rows_of_key_head df volume_no sec row t :
  rows_of_key df volume_no sec = row :: t ->
  FirstWith (has_key volume_no sec) df row.
Proof.
  intros H. apply filter_head in H as (before & after & -> & Hr & Hb).
  exists before, after. split; [reflexivity|].
  split; [now apply key_test_iff|].
  eapply Forall_impl; [|exact Hb]. intros r Hf.
  now apply (test_false_iff _ _ (key_test_iff volume_no sec r)).
Qed.

Lemma rows_of_volume_head df volume_no row t :
  rows_of_volume df volume_no = row :: t ->
  FirstWith (has_volume volume_no) df row.
Proof.
  intros H. apply filter_head in H as (before & after & -> & Hr & Hb).
  exists before, after. split; [reflexivity|].
  split; [now apply Z.eqb_eq|].
  eapply Forall_impl; [|exact Hb]. intros r Hf.
  now apply Z.eqb_neq.
Qed.

Lemma first_with_key df volume_no sec row :
  FirstWith (has_key volume_no sec) df row ->
  exists t, rows_of_key df volume_no sec = row :: t.
Proof.
  intros (before & after & -> & Hr & Hb). apply filter_first.
  - now apply key_test_iff.
  - eapply Forall_impl; [|exact Hb]. intros r Hf.
    now apply (test_false_iff _ _ (key_test_iff volume_no sec r)).
Qed.

Lemma first_with_unique P df row row' :
  FirstWith P df row -> FirstWith P df row' -> row = row'.
Proof.
  intros (b1 & a1 & E1 & P1 & N1). revert df E1.
  induction N1 as [|x b1 Nx _ IH]; intros df E1 (b2 & a2 & E2 & P2 & N2);
    subst df.
  - destruct b2 as [|y b2]; simpl in E2; injection E2 as Hy Ht; [auto|].
    subst y. inversion N2; subst. contradiction.
  - destruct b2 as [|y b2]; simpl in E2; injection E2 as Hy Ht.
    + subst x. contradiction.
    + subst y. inversion N2; subst.
      apply (IH (b1 ++ row :: a1) eq_refl).
      exists b2, a2. rewrite Ht. auto.
Qed.

Lemma rows_of_key_none df volume_no sec :
  rows_of_key df volume_no sec = []
  <-> forall r, In r df -> ~ has_key volume_no sec r.
Proof.
  unfold rows_of_key. rewrite filter_nil_iff.
  split; intros H r Hr; specialize (H r Hr);
    now apply (test_false_iff _ _ (key_test_iff volume_no sec r)).
Qed.

Lemma rows_of_volume_none df volume_no :
  rows_of_volume df volume_no = []
  <-> forall r, In r df -> ~ has_volume volume_no r.
Proof.
  unfold rows_of_volume, has_volume. rewrite filter_nil_iff.
  split; intros H r Hr; specialize (H r Hr); now apply Z.eqb_neq.
Qed.

Lemma rows_of_volume_some df volume_no :
  (exists r, In r df /\ has_volume volume_no r) ->
  exists row t, rows_of_volume df volume_no = row :: t.
Proof.
  intros (r & Hr & Hv).
  destruct (rows_of_volume df volume_no) as [|row t] eqn:E; [|eauto].
  exfalso. rewrite rows_of_volume_none in E. exact (E r Hr Hv).
Qed.

(** No row of the volume implies no row of the key. *)
Lemma rows_of_key_of_volume df volume_no sec :
  rows_of_volume df volume_no = [] -> rows_of_key df volume_no sec = [].
Proof.
  rewrite rows_of_volume_none, rows_of_key_none.
  intros H r Hr [Hv _]. exact (H r Hr Hv).
Qed.

(** The volume [min] picks in a table that has a row: it is the first item
    of least distance in the ascending list of the table's volumes. *)
Lemma nearest_choice df volume_no :
  df <> [] ->
  exists nearest before after,
    available_volumes_of df = before ++ nearest :: after
    /\ min_key (distance volume_no) (available_volumes_of df) = inr nearest
    /\ Forall (fun x => distance volume_no nearest < distance volume_no x)
              before
    /\ Forall (fun x => distance volume_no nearest <= distance volume_no x)
              after.
Proof.
  intros Hne.
  destruct (available_volumes_of df) as [|x l] eqn:E.
  - destruct df as [|r df]; [congruence|]. exfalso.
    assert (H : In (no r) (available_volumes_of (r :: df))).
    { apply available_volumes_In. exists r. simpl. auto. }
    rewrite E in H. exact H.
  - simpl. destruct (min_from_first Z (distance volume_no) l x)
      as (before & after & Heq & Hb & Ha).
    exists (min_from (distance volume_no) x l), before, after. auto.
Qed.

Lemma nearest_choice_spec df volume_no nearest before after :
  available_volumes_of df = before ++ nearest :: after ->
  Forall (fun x => distance volume_no nearest < distance volume_no x) before ->
  Forall (fun x => distance volume_no nearest <= distance volume_no x) after ->
  (exists r, In r df /\ no r = nearest)
  /\ (forall r, In r df ->
        distance volume_no nearest <= distance volume_no (no r))
  /\ (forall r, In r df ->
        distance volume_no (no r) = distance volume_no nearest ->
        nearest <= no r).
Proof.
  intros Heq Hb Ha. rewrite Forall_forall in Hb, Ha.
  assert (Hin : forall r, In r df ->
            In (no r) before \/ no r = nearest \/ In (no r) after).
  { intros r Hr.
    assert (H : In (no r) (available_volumes_of df))
      by (apply available_volumes_In; eauto).
    rewrite Heq in H. apply in_app_or in H as [H|[H|H]]; auto. }
  split; [|split].
  - apply available_volumes_In. rewrite Heq. apply in_or_app. right. now left.
  - intros r Hr. destruct (Hin r Hr) as [H|[H|H]].
    + specialize (Hb _ H). lia.
    + rewrite H. lia.
    + now apply Ha.
  - intros r Hr Hd. destruct (Hin r Hr) as [H|[H|H]].
    + specialize (Hb _ H). lia.
    + lia.
    + eapply ascending_after; [|exact H].
      rewrite <- Heq. apply sorted_ascending.
Qed.

Lemma available_volumes_nonempty df :
  df <> [] -> available_volumes_of df <> [].
Proof.
  intros Hne E. destruct df as [|r df]; [congruence|].
  assert (H : In (no r) (available_volumes_of (r :: df))).
  { apply available_volumes_In. exists r. simpl. auto. }
  rewrite E in H. exact H.
Qed.

(** With a requested volume that fits [int64] the search is the plain
    [min]; with one that does not, it raises on the first item. *)
Lemma nearest_of_fits volume_no l :
  in_int64 volume_no = true ->
  nearest_of volume_no l = min_key (distance volume_no) l.
Proof.
  intros H. destruct l as [|x t]; [reflexivity|].
  unfold nearest_of, int64_sub. now rewrite H.
Qed.

Lemma nearest_of_overflow volume_no l :
  in_int64 volume_no = false -> l <> [] ->
  nearest_of volume_no l = inl OverflowError.
Proof.
  intros H Hne. destruct l as [|x t]; [contradiction|].
  unfold nearest_of, int64_sub. now rewrite H.
Qed.

Lemma nearest_of_found volume_no l nearest :
  nearest_of volume_no l = inr nearest ->
  in_int64 volume_no = true /\ min_key (distance volume_no) l = inr nearest.
Proof.
  destruct (in_int64 volume_no) eqn:H.
  - rewrite (nearest_of_fits volume_no l H). auto.
  - destruct l as [|x t]; [discriminate|].
    rewrite (nearest_of_overflow volume_no (x :: t) H); [|discriminate].
    discriminate.
Qed.

(** Both drivers agree on a table that has a row. *)
Lemma resolve_agree df volume_no sec :
  df <> [] ->
  Script.resolve df volume_no sec = Server.resolve df volume_no sec.
Proof.
  intros Hne. unfold Script.resolve, Server.resolve.
  destruct (rows_of_key df volume_no sec); [|reflexivity].
  destruct (rows_of_volume df volume_no); [|reflexivity].
  cbv zeta.
  destruct (available_volumes_of df) as [|x l] eqn:E; [|reflexivity].
  exfalso. exact (available_volumes_nonempty df Hne E).
Qed.

Lemma resolve_nearest df volume_no sec :
  df <> [] -> rows_of_volume df volume_no = [] ->
  in_int64 volume_no = true ->
  exists nearest row before after,
    Server.resolve df volume_no sec = inr (NearestVolume nearest row)
    /\ available_volumes_of df = before ++ nearest :: after
    /\ Forall (fun x => distance volume_no nearest < distance volume_no x)
              before
    /\ Forall (fun x => distance volume_no nearest <= distance volume_no x)
              after
    /\ FirstWith (has_volume nearest) df row.
Proof.
  intros Hne Hv Hfit. unfold Server.resolve.
  rewrite (rows_of_key_of_volume df volume_no sec Hv), Hv.
  cbv zeta. rewrite (nearest_of_fits volume_no _ Hfit).
  destruct (nearest_choice df volume_no Hne) as (m & b & a & Heq & Hmin & Hb & Ha).
  rewrite Hmin.
  destruct (nearest_choice_spec df volume_no m b a Heq Hb Ha) as (Hin & _).
  destruct (rows_of_volume_some df m Hin) as (row & t & Hrow).
  rewrite Hrow. exists m, row, b, a.
  repeat split; auto. eapply rows_of_volume_head; eauto.
Qed.

(* ================================================================== *)
(** ** Context Resolver: the three levels *)
(* ================================================================== *)

(** The exact-match branch, for both drivers at once. *)
Lemma exact_resolution df volume_no sec row :
  FirstWith (has_key volume_no sec) df row ->
  Script.resolve df volume_no sec = inr (Exact row)
  /\ Server.resolve df volume_no sec = inr (Exact row).
Proof.
  intros Hfirst.
  destruct (first_with_key df volume_no sec row Hfirst) as (t & Ht).
  unfold Script.resolve, Server.resolve. rewrite Ht. split; reflexivity.
Qed.

(** The same-volume branch, for both drivers at once. *)
Lemma same_volume_resolution df volume_no sec :
  (exists r, In r df /\ has_volume volume_no r) ->
  (forall r, In r df -> ~ has_key volume_no sec r) ->
  exists row,
    FirstWith (has_volume volume_no) df row
    /\ Script.resolve df volume_no sec = inr (SameVolume row)
    /\ Server.resolve df volume_no sec = inr (SameVolume row)
    /\ usedFallbackLevel (SameVolume row) = Some 1%nat
    /\ actualVolumeUsed volume_no (SameVolume row) = Some volume_no
    /\ actualSectionUsed sec (SameVolume row) = Some (section row).
Proof.
  intros Hvol Hkey.
  destruct (rows_of_volume_some df volume_no Hvol) as (row & t & Hrow).
  apply rows_of_key_none in Hkey.
  exists row. split; [eapply rows_of_volume_head; eauto|].
  unfold Script.resolve, Server.resolve. rewrite Hkey, Hrow.
  repeat split.
Qed.

(** Where nothing wraps, the key of the search is the distance. *)
Lemma distance_exact volume_no x :
  - 2 ^ 63 < x - volume_no < 2 ^ 63 ->
  distance volume_no x = Z.abs (x - volume_no).
Proof.
  intros H. unfold distance, int64_abs, wrap64.
  rewrite (Z.mod_small (x - volume_no + 2 ^ 63)) by lia.
  replace (x - volume_no + 2 ^ 63 - 2 ^ 63) with (x - volume_no) by lia.
  rewrite Z.mod_small by lia. lia.
Qed.






(* ================================================================== *)
(** ** Prompt Budgeter *)
(* ================================================================== *)

Section Budget.
Context {tokenizer : Tokenizer}.

(** Both budgeters are the same function of the limit and the base prompt. *)
Lemma truncate_eq (b : Budgeter) (context_paragraph term : pystr) :
  truncate b context_paragraph term
  = if tokenCount context_paragraph <=? available b term
    then (context_paragraph, [])
    else (decode (slice_to (available b term) (encode context_paragraph)),
          [ContextTooLong (tokenCount context_paragraph) (available b term)]).
Proof.
  destruct b;
    unfold truncate, available, maxTokens, basePrompt, tokenCount,
      Script.truncate_context_if_needed, Server.truncate_context_if_needed;
    cbv zeta; reflexivity.
Qed.

Lemma tokenCount_nonneg (text : pystr) : 0 <= tokenCount text.
Proof. unfold tokenCount. lia. Qed.

(** C6.  A context paragraph whose token count is at most the available
    budget comes back unchanged, and nothing is logged. *)
Theorem short_context_unchanged (b : Budgeter) (context_paragraph term : pystr) :
  tokenCount context_paragraph <= available b term ->
  truncate b context_paragraph term = (context_paragraph, []).
Proof.
  intros H. rewrite truncate_eq.
  apply Z.leb_le in H. now rewrite H.
Qed.


(** With a negative budget the same branch runs: the slice counts from the
    end of the token list. *)
Lemma negative_budget_truncates (b : Budgeter)
  (context_paragraph term : pystr) :
  available b term < 0 ->
  truncate b context_paragraph term
  = (decode (firstn (Z.to_nat (tokenCount context_paragraph
                               + available b term))
                    (encode context_paragraph)),
     [ContextTooLong (tokenCount context_paragraph) (available b term)]).
Proof.
  intros Hneg. rewrite truncate_eq.
  pose proof (tokenCount_nonneg context_paragraph) as Hc.
  assert (H1 : (tokenCount context_paragraph <=? available b term) = false)
    by (apply Z.leb_gt; lia).
  assert (H2 : (0 <=? available b term) = false) by (apply Z.leb_gt; lia).
  rewrite H1. unfold slice_to. rewrite H2. reflexivity.
Qed.

End Budget.

Lemma short_context_unchanged_witness :
  @available char_tokenizer (ServerBudgeter (small_config 20)) (py "x") = 8
  /\ @truncate char_tokenizer (ServerBudgeter (small_config 20))
       (py "12345678") (py "x")
     = (py "12345678", []).
Proof.
  split; [reflexivity|].
  apply (@short_context_unchanged char_tokenizer).
  vm_compute. discriminate.
Defined.



(* ================================================================== *)
(** ** One row of a target file *)
(* ================================================================== *)

Lemma context_row_used_section (sec : pystr) (r : Resolution)
  (row : ControlRecord) :
  context_row_of r = Some row ->
  actualSectionUsed sec r = Some (used_section sec r).
Proof. destruct r; simpl; intros H; try discriminate; reflexivity. Qed.

Lemma context_paragraph_row (r : Resolution) (c : pystr) :
  contextParagraph r = Some c ->
  exists row, context_row_of r = Some row /\ disease_content row = Some c.
Proof.
  unfold contextParagraph. destruct (context_row_of r) as [row|];
    [eauto | discriminate].
Qed.

Section Rows.
Context {tokenizer : Tokenizer} {model : LocalModel}.
Variable config : Server.Config.

(** A row of the script whose lookup found a row with a content. *)
Lemma script_row_translated df volume_no term sec r c :
  blank term = false -> blank sec = false ->
  Script.resolve df volume_no sec = inr r ->
  contextParagraph r = Some c ->
  Script.process_row df volume_no term sec
  = inr (script_events volume_no term sec r c,
         Some (script_record volume_no term sec r c)).
Proof.
  intros Ht Hs Hres Hc.
  destruct (context_paragraph_row r c Hc) as (row & Hrow & Hcontent).
  unfold Script.process_row, script_events, script_record, script_prompt.
  rewrite Ht, Hs, Hres, Hrow.
  rewrite (context_row_used_section sec r row Hrow), Hcontent.
  cbn [orb].
  destruct (Script.truncate_context_if_needed c term Script.default_max_tokens)
    as [truncated cut].
  cbn [fst snd].
  destruct (Script.execute_translation_prompt
              (Script.full_prompt_of truncated term)) as [translated ran].
  reflexivity.
Qed.

(** A row of the script whose lookup found a row with a blank content. *)
Lemma script_row_skipped df volume_no term sec r row :
  blank term = false -> blank sec = false ->
  Script.resolve df volume_no sec = inr r ->
  context_row_of r = Some row -> disease_content row = None ->
  Script.process_row df volume_no term sec
  = inr (Script.resolution_log volume_no term sec r
         ++ [ContextEmpty volume_no (used_section sec r) term], None).
Proof.
  intros Ht Hs Hres Hrow Hcontent.
  unfold Script.process_row.
  rewrite Ht, Hs, Hres, Hrow.
  rewrite (context_row_used_section sec r row Hrow), Hcontent.
  reflexivity.
Qed.

(** The same two cases for the server. *)
Lemma server_row_translated df volume_no st row_term sec r c :
  let term := Server.remove_leading_treatment row_term in
  blank term = false -> blank sec = false ->
  Server.resolve df volume_no sec = inr r ->
  contextParagraph r = Some c ->
  Server.process_row config df volume_no st row_term sec
  = inr (Server.append_result
           (server_record config volume_no term sec c)
           (Server.log_events (server_events config c term)
              (Server.note_resolution volume_no term sec r st))).
Proof.
  intros term Ht Hs Hres Hc.
  destruct (context_paragraph_row r c Hc) as (row & Hrow & Hcontent).
  unfold Server.process_row, server_events, server_record, server_prompt.
  fold term. rewrite Ht, Hs, Hres, Hrow.
  rewrite (context_row_used_section sec r row Hrow), Hcontent.
  cbn [orb].
  destruct (Server.truncate_context_if_needed config c term)
    as [truncated cut].
  cbn [fst snd].
  destruct (Server.execute_translation_prompt config
              (Server.prompt_template config truncated term))
    as [translated ran].
  reflexivity.
Qed.

Lemma server_row_skipped df volume_no st row_term sec r row :
  let term := Server.remove_leading_treatment row_term in
  blank term = false -> blank sec = false ->
  Server.resolve df volume_no sec = inr r ->
  context_row_of r = Some row -> disease_content row = None ->
  Server.process_row config df volume_no st row_term sec
  = inr (Server.log_events
           [ContextEmpty volume_no (used_section sec r) term]
           (Server.note_resolution volume_no term sec r st)).
Proof.
  intros term Ht Hs Hres Hrow Hcontent.
  unfold Server.process_row.
  fold term. rewrite Ht, Hs, Hres, Hrow.
  rewrite (context_row_used_section sec r row Hrow), Hcontent.
  reflexivity.
Qed.

End Rows.

Lemma note_resolution_results volume_no term sec r st :
  Server.translation_results (Server.note_resolution volume_no term sec r st)
  = Server.translation_results st.
Proof. destruct r; reflexivity. Qed.

Lemma note_resolution_trace volume_no term sec r st :
  exists noted,
    Server.trace (Server.note_resolution volume_no term sec r st)
    = Server.trace st ++ noted
    /\ existsb is_call noted = false.
Proof.
  destruct r; cbn [Server.note_resolution Server.trace];
    try (eexists; split; reflexivity).
  exists []. now rewrite app_nil_r.
Qed.

(* ================================================================== *)
(** ** A base prompt over the budget *)
(* ================================================================== *)

Section OverBudget.
Context {tokenizer : Tokenizer} {model : LocalModel}.
Variable config : Server.Config.

Lemma server_generate_logged (full_prompt : pystr) :
  In (CallGenerate full_prompt)
     (snd (Server.execute_translation_prompt config full_prompt)).
Proof.
  unfold Server.execute_translation_prompt. cbn [snd].
  apply in_or_app. right. now left.
Qed.


End OverBudget.



(* ================================================================== *)
(** ** The leading 治療 / 治 of a term (server) *)
(* ================================================================== *)

Lemma remove_two (rest : pystr) :
  Server.remove_leading_treatment (py "治療" ++ rest) = rest.
Proof.
  unfold Server.remove_leading_treatment.
  change (py "治療") with [27835%N; 30274%N]. reflexivity.
Qed.

Lemma remove_one (rest : pystr) :
  startswith (py "治療") (py "治" ++ rest) = false ->
  Server.remove_leading_treatment (py "治" ++ rest) = rest.
Proof.
  unfold Server.remove_leading_treatment.
  change (py "治療") with [27835%N; 30274%N].
  change (py "治") with [27835%N].
  intros H. rewrite H. reflexivity.
Qed.

Lemma remove_none (term : pystr) :
  startswith (py "治") term = false ->
  Server.remove_leading_treatment term = term.
Proof.
  unfold Server.remove_leading_treatment.
  change (py "治療") with [27835%N; 30274%N].
  change (py "治") with [27835%N].
  intros H. destruct term as [|x term]; [reflexivity|].
  cbn [startswith Server.truthy andb] in *.
  destruct (27835 =? x)%N eqn:E; [discriminate H | reflexivity].
Qed.

(** C10.  In the server a term that begins with 治療 loses its first two
    characters, and otherwise a term that begins with 治 loses its first
    one; the row is then processed with the shortened term: it is the term
    given to the budgeter, put into the prompt, and written to the
    original-text column of the record. *)
Theorem leading_treatment_is_removed
  {tokenizer : Tokenizer} {model : LocalModel} (config : Server.Config)
  df volume_no st row_term sec r c rest :
  (row_term = py "治療" ++ rest ->
   Server.remove_leading_treatment row_term = rest)
  /\ (row_term = py "治" ++ rest ->
      startswith (py "治療") row_term = false ->
      Server.remove_leading_treatment row_term = rest)
  /\ (let term := Server.remove_leading_treatment row_term in
      blank term = false -> blank sec = false ->
      Server.resolve df volume_no sec = inr r ->
      contextParagraph r = Some c ->
      Server.process_row config df volume_no st row_term sec
      = inr (Server.append_result
               (server_record config volume_no term sec c)
               (Server.log_events (server_events config c term)
                  (Server.note_resolution volume_no term sec r st)))
      /\ Server.rec_original (server_record config volume_no term sec c)
         = term
      /\ In (CallTruncate c term) (server_events config c term)
      /\ In (CallGenerate
               (Server.prompt_template config
                  (fst (Server.truncate_context_if_needed config c term))
                  term))
            (server_events config c term)).
Proof.
  split; [intros ->; apply remove_two|].
  split; [intros ->; apply remove_one|].
  intros term Ht Hs Hres Hc.
  split; [exact (server_row_translated config df volume_no st row_term sec r c
                   Ht Hs Hres Hc)|].
  split; [reflexivity|].
  unfold server_events, server_prompt. split; [now left|].
  apply in_or_app. right. apply in_or_app. right.
  apply server_generate_logged.
Qed.

Lemma leading_treatment_is_removed_witness :
  Server.remove_leading_treatment (py "治療頭痛") = py "頭痛"
  /\ Server.remove_leading_treatment (py "治頭痛") = py "頭痛"
  /\ map Server.rec_original
       (Server.file_results
          (@Server.process_file_translation_for_merge
             char_tokenizer echo_model (small_config 3800) intro_table 1
             [target "治療頭痛" "intro"]))
     = [py "頭痛"].
Proof.
  destruct (@leading_treatment_is_removed char_tokenizer echo_model
              (small_config 3800) intro_table 1 (Server.initial_state 1)
              (py "治療頭痛") (py "intro") (Exact (record 1 "intro" "foo"))
              (py "foo") (py "頭痛")) as (H2 & _ & Hrow).
  destruct (@leading_treatment_is_removed char_tokenizer echo_model
              (small_config 3800) intro_table 1 (Server.initial_state 1)
              (py "治頭痛") (py "intro") (Exact (record 1 "intro" "foo"))
              (py "foo") (py "頭痛")) as (_ & H1 & _).
  split; [exact (H2 eq_refl)|]. split; [exact (H1 eq_refl eq_refl)|].
  destruct (Hrow eq_refl eq_refl eq_refl eq_refl) as (E & _).
  unfold Server.process_file_translation_for_merge,
    Server.process_file_core_translation.
  change (valid_rows [target "治療頭痛" "intro"])
    with [(py "治療頭痛", py "intro")].
  cbn [Server.process_rows]. rewrite E. reflexivity.
Defined.

(* ================================================================== *)
(** ** An empty control table *)
(* ================================================================== *)

Section EmptyTable.
Context {tokenizer : Tokenizer} {model : LocalModel}.
Variable config : Server.Config.

(** The script tests [available_volumes] and skips the term. *)
Lemma script_row_skips_on_empty_table volume_no term sec :
  blank term = false -> blank sec = false ->
  Script.process_row [] volume_no term sec
  = inr ([NoVolumeAvailable term], None).
Proof.
  intros Ht Hs. unfold Script.process_row. rewrite Ht, Hs. reflexivity.
Qed.

(** Whatever the rows, the script's loop over a file ends normally on an
    empty table, with no record added and nothing reported as an error of
    the file. *)
Lemma script_file_survives_empty_table volume_no rows run :
  Script.translation_results (Script.process_rows [] volume_no rows run)
  = Script.translation_results run
  /\ Script.reports (Script.process_rows [] volume_no rows run)
     = Script.reports run.
Proof.
  revert run. induction rows as [|[term sec] rows IH]; intros run;
    [split; reflexivity|].
  cbn [Script.process_rows].
  assert (E : exists events,
             Script.process_row [] volume_no term sec = inr (events, None)).
  { unfold Script.process_row.
    destruct (blank term || blank sec); eexists; reflexivity. }
  destruct E as (events & ->).
  destruct (IH {| Script.translation_results :=
                    Script.translation_results run ++ [];
                  Script.trace := Script.trace run ++ events;
                  Script.reports := Script.reports run |}) as (H1 & H2).
  rewrite H1, H2. cbn. now rewrite app_nil_r.
Qed.

(** The server calls [min] on the empty list of volumes: the row raises. *)
Lemma server_row_raises_on_empty_table volume_no st row_term sec :
  blank (Server.remove_leading_treatment row_term) = false ->
  blank sec = false ->
  Server.process_row config [] volume_no st row_term sec
  = inl (ValueError, st).
Proof.
  intros Ht Hs. unfold Server.process_row. rewrite Ht, Hs. reflexivity.
Qed.

(** So the first row that is not blank ends the file with status [error],
    and the rows after it are never looked at. *)
Lemma server_file_fails_on_empty_table volume_no term sec rest :
  blank (Server.remove_leading_treatment term) = false ->
  blank sec = false ->
  Server.process_file_translation_for_merge config [] volume_no
    ({| disease := Some term; target_section := Some sec |} :: rest)
  = {| Server.status := Server.error;
       Server.file_results := [];
       Server.file_fallback_used := false;
       Server.file_actual_volume_used := None;
       Server.file_trace := [];
       Server.file_reports :=
         [ProcessingError ValueError; ProcessingError ValueError] |}.
Proof.
  intros Ht Hs.
  unfold Server.process_file_translation_for_merge,
    Server.process_file_core_translation.
  cbn [valid_rows flat_map disease target_section app Server.process_rows].
  rewrite (server_row_raises_on_empty_table volume_no _ term sec Ht Hs).
  reflexivity.
Qed.

End EmptyTable.

(** C8, the failing input.  On an empty control table the script skips each
    term with an error line and goes on, as the claim says; the server's
    first term raises [ValueError] out of the row loop, the file comes back
    with status [error], and its second term is never tried. *)
Theorem empty_table_script_skips_server_raises :
  @Script.process_file char_tokenizer echo_model [] 1
     [target "x" "a"; target "y" "b"] empty_run
  = {| Script.translation_results := [];
       Script.trace := [NoVolumeAvailable (py "x");
                        NoVolumeAvailable (py "y")];
       Script.reports := [] |}
  /\ @Server.process_file_translation_for_merge
       char_tokenizer echo_model (small_config 3800) [] 1
       [target "x" "a"; target "y" "b"]
     = {| Server.status := Server.error;
          Server.file_results := [];
          Server.file_fallback_used := false;
          Server.file_actual_volume_used := None;
          Server.file_trace := [];
          Server.file_reports :=
            [ProcessingError ValueError; ProcessingError ValueError] |}.
Proof. split; vm_compute; reflexivity. Qed.

(* ================================================================== *)
(** ** Blank content cells *)
(* ================================================================== *)








Section Guarded.
Context {tokenizer : Tokenizer} {model : LocalModel}.
Variable config : Server.Config.





Lemma truncate_log_no_call (b : Budgeter) (c term : pystr) :
  existsb is_call (snd (truncate b c term)) = false.
Proof.
  rewrite truncate_eq.
  destruct (tokenCount c <=? available b term); reflexivity.
Qed.

(** A row of the script whose lookup found no row at all. *)
Lemma script_row_unresolved df volume_no term sec r :
  blank term = false -> blank sec = false ->
  Script.resolve df volume_no sec = inr r ->
  context_row_of r = None ->
  Script.process_row df volume_no term sec
  = inr (Script.resolution_log volume_no term sec r, None).
Proof.
  intros Ht Hs Hres Hrow. unfold Script.process_row.
  rewrite Ht, Hs, Hres, Hrow. reflexivity.
Qed.

Lemma server_row_unresolved df volume_no st row_term sec r :
  let term := Server.remove_leading_treatment row_term in
  blank term = false -> blank sec = false ->
  Server.resolve df volume_no sec = inr r ->
  context_row_of r = None ->
  Server.process_row config df volume_no st row_term sec
  = inr (Server.note_resolution volume_no term sec r st).
Proof.
  intros term Ht Hs Hres Hrow. unfold Server.process_row.
  fold term. rewrite Ht, Hs, Hres, Hrow. reflexivity.
Qed.











End Guarded.




(* ================================================================== *)
(** ** The fallbacks as the drivers report them *)
(* ================================================================== *)

Section Reported.
Context {tokenizer : Tokenizer} {model : LocalModel}.
Variable config : Server.Config.

(** A row of the script that is not blank prints what its lookup found
    before anything else. *)
Lemma script_row_prints df volume_no term sec r :
  blank term = false -> blank sec = false ->
  Script.resolve df volume_no sec = inr r ->
  exists rest appended,
    Script.process_row df volume_no term sec
    = inr (Script.resolution_log volume_no term sec r ++ rest, appended).
Proof.
  intros Ht Hs Hres.
  destruct (context_row_of r) as [row|] eqn:Hr.
  - destruct (disease_content row) as [c|] eqn:Hc.
    + assert (Hp : contextParagraph r = Some c)
        by (unfold contextParagraph; now rewrite Hr).
      rewrite (script_row_translated df volume_no term sec r c Ht Hs Hres Hp).
      unfold script_events. eauto.
    + rewrite (script_row_skipped df volume_no term sec r row Ht Hs Hres Hr Hc).
      eauto.
  - rewrite (script_row_unresolved df volume_no term sec r Ht Hs Hres Hr).
    exists [], None. now rewrite app_nil_r.
Qed.

(** A row of the server that is not blank leaves the counters, the flag and
    the volume as its lookup set them, and logs the lookup's line before
    anything else. *)
Lemma server_row_notes df volume_no st row_term sec r :
  let term := Server.remove_leading_treatment row_term in
  blank term = false -> blank sec = false ->
  Server.resolve df volume_no sec = inr r ->
  exists st' rest,
    Server.process_row config df volume_no st row_term sec = inr st'
    /\ Server.trace st'
       = Server.trace (Server.note_resolution volume_no term sec r st) ++ rest
    /\ Server.fallback_level1_count st'
       = Server.fallback_level1_count
           (Server.note_resolution volume_no term sec r st)
    /\ Server.fallback_level2_count st'
       = Server.fallback_level2_count
           (Server.note_resolution volume_no term sec r st)
    /\ Server.actual_volume_used st'
       = Server.actual_volume_used
           (Server.note_resolution volume_no term sec r st)
    /\ Server.fallback_used st'
       = Server.fallback_used
           (Server.note_resolution volume_no term sec r st).
Proof.
  intros term Ht Hs Hres.
  destruct (context_row_of r) as [row|] eqn:Hr.
  - destruct (disease_content row) as [c|] eqn:Hc.
    + assert (Hp : contextParagraph r = Some c)
        by (unfold contextParagraph; now rewrite Hr).
      rewrite (server_row_translated config df volume_no st row_term sec r c
                 Ht Hs Hres Hp).
      eexists. exists (server_events config c term).
      repeat split; reflexivity.
    + rewrite (server_row_skipped config df volume_no st row_term sec r row
                 Ht Hs Hres Hr Hc).
      eexists. exists [ContextEmpty volume_no (used_section sec r) term].
      repeat split; reflexivity.
  - rewrite (server_row_unresolved config df volume_no st row_term sec r
               Ht Hs Hres Hr).
    eexists. exists []. rewrite app_nil_r. repeat split; reflexivity.
Qed.

(** C2.  When the requested volume has rows in the control table, none of
    them with the requested section, and some row of the volume has a
    non-empty content, both drivers take the same-volume fallback: level 1,
    the volume used is the requested one and the section used is that of the
    first row of the volume in table order.  This is what they report: the
    script prints the level-1 warning with that section, the server logs it,
    adds one to its level-1 counter and leaves the volume used alone. *)
Theorem same_volume_fallback df volume_no sec st term :
  (exists r, In r df /\ has_volume volume_no r) ->
  (forall r, In r df -> ~ has_key volume_no sec r) ->
  (exists r, In r df /\ has_volume volume_no r /\ nonempty_content r) ->
  exists row,
    FirstWith (has_volume volume_no) df row
    /\ Script.resolve df volume_no sec = inr (SameVolume row)
    /\ Server.resolve df volume_no sec = inr (SameVolume row)
    /\ usedFallbackLevel (SameVolume row) = Some 1%nat
    /\ actualVolumeUsed volume_no (SameVolume row) = Some volume_no
    /\ actualSectionUsed sec (SameVolume row) = Some (section row)
    /\ (blank term = false -> blank sec = false ->
        exists rest appended,
          Script.process_row df volume_no term sec
          = inr (FallbackLevel1 volume_no sec (section row) :: rest,
                 appended))
    /\ (blank (Server.remove_leading_treatment term) = false ->
        blank sec = false ->
        exists st' rest,
          Server.process_row config df volume_no st term sec = inr st'
          /\ Server.trace st'
             = Server.trace st
               ++ FallbackLevel1 volume_no sec (section row) :: rest
          /\ Server.fallback_level1_count st'
             = S (Server.fallback_level1_count st)
          /\ Server.fallback_level2_count st'
             = Server.fallback_level2_count st
          /\ Server.actual_volume_used st' = Server.actual_volume_used st).
Proof.
  intros Hvol Hkey _.
  destruct (same_volume_resolution df volume_no sec Hvol Hkey)
    as (row & Hfirst & Hscript & Hserver & H1 & H2 & H3).
  exists row. do 6 (split; [assumption|]). split.
  - intros Ht Hs.
    destruct (script_row_prints df volume_no term sec (SameVolume row)
                Ht Hs Hscript) as (rest & appended & E).
    exists rest, appended. exact E.
  - intros Ht Hs.
    destruct (server_row_notes df volume_no st term sec (SameVolume row)
                Ht Hs Hserver) as (st' & rest & E & Htr & Hc1 & Hc2 & Hv & _).
    exists st', rest. split; [exact E|].
    cbn [Server.note_resolution Server.trace Server.fallback_level1_count
         Server.fallback_level2_count Server.actual_volume_used] in *.
    rewrite Htr, <- app_assoc. repeat split; assumption.
Qed.


End Reported.

(** C1 (as amended).  When the first row in table order whose (volume,
    section) equals the requested pair has a content, both drivers resolve at
    fallback level 0, with the requested volume and section as the ones
    used, and the context paragraph is that row's content: it is what the
    row hands to the budgeter, with no fallback warning before it. *)
Theorem exact_match_uses_first_row
  {tokenizer : Tokenizer} {model : LocalModel} (config : Server.Config)
  df volume_no sec row c st term :
  FirstWith (has_key volume_no sec) df row ->
  disease_content row = Some c ->
  Script.resolve df volume_no sec = inr (Exact row)
  /\ Server.resolve df volume_no sec = inr (Exact row)
  /\ usedFallbackLevel (Exact row) = Some 0%nat
  /\ contextParagraph (Exact row) = Some c
  /\ actualVolumeUsed volume_no (Exact row) = Some volume_no
  /\ actualSectionUsed sec (Exact row) = Some sec
  /\ (blank term = false -> blank sec = false ->
      exists rest appended,
        Script.process_row df volume_no term sec
        = inr (CallTruncate c term :: rest, appended))
  /\ (let cut_term := Server.remove_leading_treatment term in
      blank cut_term = false -> blank sec = false ->
      exists st' rest,
        Server.process_row config df volume_no st term sec = inr st'
        /\ Server.trace st'
           = Server.trace st ++ CallTruncate c cut_term :: rest
        /\ Server.fallback_level1_count st' = Server.fallback_level1_count st
        /\ Server.fallback_level2_count st'
           = Server.fallback_level2_count st).
Proof.
  intros Hfirst Hc.
  destruct (exact_resolution df volume_no sec row Hfirst) as (Hscript & Hserver).
  do 2 (split; [assumption|]). do 4 (split; [first [reflexivity|exact Hc]|]).
  split.
  - intros Ht Hs.
    rewrite (script_row_translated df volume_no term sec (Exact row) c
               Ht Hs Hscript Hc).
    unfold script_events. cbn [Script.resolution_log app]. eauto.
  - intros cut_term Ht Hs.
    rewrite (server_row_translated config df volume_no st term sec
               (Exact row) c Ht Hs Hserver Hc).
    eexists. eexists.
    cbn [Server.trace Server.append_result Server.log_events
         Server.note_resolution Server.fallback_level1_count
         Server.fallback_level2_count].
    unfold server_events. cbn [app].
    split; [reflexivity|]. repeat split; reflexivity.
Qed.

Lemma exact_match_uses_first_row_witness :
  FirstWith (has_key 1 (py "intro")) intro_table (record 1 "intro" "foo")
  /\ Script.resolve intro_table 1 (py "intro")
     = inr (Exact (record 1 "intro" "foo"))
  /\ contextParagraph (Exact (record 1 "intro" "foo")) = Some (py "foo").
Proof.
  assert (H : FirstWith (has_key 1 (py "intro")) intro_table
                        (record 1 "intro" "foo")).
  { exists [], []. repeat split. constructor. }
  split; [exact H|].
  destruct (@exact_match_uses_first_row char_tokenizer echo_model
              (small_config 3800) intro_table 1 (py "intro")
              (record 1 "intro" "foo") (py "foo") (Server.initial_state 1)
              (py "x") H eq_refl)
    as (Hs & _ & _ & Hc & _).
  split; [exact Hs | exact Hc].
Defined.

(** C1, counterexample.  In [blank_then_foo_table] the key (1, intro) has a
    row with content foo, but the first row of that key has a blank content
    cell: the lookup takes the blank row, no context paragraph comes out, and
    the row loop skips the term with the empty-context warning. *)
Lemma exact_match_not_first_nonempty :
  FirstWith (fun r => has_key 1 (py "intro") r /\ nonempty_content r)
            blank_then_foo_table (record 1 "intro" "foo")
  /\ Script.resolve blank_then_foo_table 1 (py "intro")
     = inr (Exact (blank_record 1 "intro"))
  /\ Server.resolve blank_then_foo_table 1 (py "intro")
     = inr (Exact (blank_record 1 "intro"))
  /\ contextParagraph (Exact (blank_record 1 "intro")) = None
  /\ @Script.process_row char_tokenizer echo_model
       blank_then_foo_table 1 (py "x") (py "intro")
     = inr ([ContextEmpty 1 (py "intro") (py "x")], None)
  /\ ~ exact_match_claim Script.resolve
  /\ ~ exact_match_claim Server.resolve.
Proof.
  assert (H : FirstWith
                (fun r => has_key 1 (py "intro") r /\ nonempty_content r)
                blank_then_foo_table (record 1 "intro" "foo")).
  { exists [blank_record 1 "intro"], []. split; [reflexivity|]. split.
    - split; [split; reflexivity|]. exists (py "foo"). split; [reflexivity|].
      discriminate.
    - constructor; [|constructor].
      intros (_ & c & Hc & _). discriminate Hc. }
  split; [exact H|]. do 3 (split; [reflexivity|]).
  split; [vm_compute; reflexivity|].
  split; intros Hclaim;
    destruct (Hclaim _ _ _ _ (py "foo") H eq_refl) as (r & Hr & _ & Hc);
    injection Hr as <-; discriminate Hc.
Qed.

Lemma same_volume_fallback_witness :
  exists row,
    FirstWith (has_volume 1) intro_table row
    /\ Script.resolve intro_table 1 (py "body") = inr (SameVolume row)
    /\ Server.resolve intro_table 1 (py "body") = inr (SameVolume row)
    /\ usedFallbackLevel (SameVolume row) = Some 1%nat
    /\ actualVolumeUsed 1 (SameVolume row) = Some 1
    /\ actualSectionUsed (py "body") (SameVolume row) = Some (section row).
Proof.
  destruct (@same_volume_fallback char_tokenizer echo_model
              (small_config 3800) intro_table 1 (py "body")
              (Server.initial_state 1) (py "x"))
    as (row & H1 & H2 & H3 & H4 & H5 & H6 & _).
  - exists (record 1 "intro" "foo"). split; [left|]; reflexivity.
  - intros r [<-|[]] [_ H]. discriminate H.
  - exists (record 1 "intro" "foo"). split; [left; reflexivity|].
    split; [reflexivity|]. exists (py "foo"). split; [reflexivity|discriminate].
  - exists row. repeat split; assumption.
Defined.



(* ================================================================== *)
(** ** When the lookup raises, and what it never returns *)
(* ================================================================== *)

Lemma min_key_In (key : Z -> Z) (l : list Z) (m : Z) :
  min_key key l = inr m -> In m l.
Proof.
  destruct l as [|x t]; cbn [min_key]; [discriminate|].
  intros H. injection H as <-.
  destruct (min_from_first Z key t x) as (before & after & Heq & _).
  rewrite Heq. apply in_or_app. right. now left.
Qed.

(** What each answer of the server's lookup says about the table. *)
Lemma server_resolve_cases df volume_no sec r :
  Server.resolve df volume_no sec = inr r ->
  match r with
  | Exact row => FirstWith (has_key volume_no sec) df row
  | SameVolume row =>
      rows_of_key df volume_no sec = []
      /\ FirstWith (has_volume volume_no) df row
  | NearestVolume nearest row =>
      rows_of_volume df volume_no = []
      /\ min_key (distance volume_no) (available_volumes_of df) = inr nearest
      /\ FirstWith (has_volume nearest) df row
  | NoContext | NoVolumes => False
  end.
Proof.
  unfold Server.resolve.
  destruct (rows_of_key df volume_no sec) as [|r0 t0] eqn:Ekey.
  - destruct (rows_of_volume df volume_no) as [|r1 t1] eqn:Evol.
    + cbv zeta.
      destruct (nearest_of volume_no (available_volumes_of df))
        as [e|nearest] eqn:Enear0; [discriminate|].
      apply nearest_of_found in Enear0 as [_ Emin].
      destruct (rows_of_volume df nearest) as [|r2 t2] eqn:Enear;
        intros H; injection H as <-.
      * apply min_key_In, available_volumes_In in Emin.
        destruct (rows_of_volume_some df nearest Emin) as (row & t & E).
        congruence.
      * split; [reflexivity|]. split; [exact Emin|].
        eapply rows_of_volume_head; eauto.
    + intros H; injection H as <-.
      split; [reflexivity|]. eapply rows_of_volume_head; eauto.
  - intros H; injection H as <-. eapply rows_of_key_head; eauto.
Qed.


(** The server's lookup raises in two cases only: [ValueError] on the empty
    table, and [OverflowError] when it reaches the nearest-volume search
    with a requested volume that does not fit [int64]. *)
Lemma server_resolve_raises df volume_no sec e :
  Server.resolve df volume_no sec = inl e <->
  rows_of_volume df volume_no = []
  /\ ((df = [] /\ e = ValueError)
      \/ (df <> [] /\ in_int64 volume_no = false /\ e = OverflowError)).
Proof.
  unfold Server.resolve.
  destruct (rows_of_volume df volume_no) as [|r1 t1] eqn:Evol.
  - rewrite (rows_of_key_of_volume df volume_no sec Evol). cbv zeta.
    destruct df as [|r0 df0].
    + cbn. split.
      * intros H. injection H as <-. split; [reflexivity|]. left. auto.
      * intros (_ & [(_ & ->)|(H & _)]); [reflexivity | contradiction].
    + set (df := r0 :: df0) in *. assert (Hne : df <> []) by discriminate.
      destruct (in_int64 volume_no) eqn:Hfit.
      * destruct (resolve_nearest df volume_no sec Hne Evol Hfit)
          as (nearest & row & _ & _ & Hres & _).
        unfold Server.resolve in Hres.
        rewrite (rows_of_key_of_volume df volume_no sec Evol), Evol in Hres.
        cbv zeta in Hres. rewrite Hres. split; [discriminate|].
        intros (_ & [(H & _)|(_ & H & _)]); [contradiction | discriminate].
      * rewrite (nearest_of_overflow volume_no _ Hfit
                   (available_volumes_nonempty df Hne)).
        split.
        -- intros H. injection H as <-. split; [reflexivity|]. right. auto.
        -- intros (_ & [(H & _)|(_ & _ & ->)]); [contradiction | reflexivity].
  - split.
    + intros H. exfalso.
      destruct (rows_of_key df volume_no sec); discriminate.
    + intros (H & _). discriminate.
Qed.







(* ================================================================== *)
(** ** The row loops in closed form *)
(* ================================================================== *)

Lemma filter_generate_no_call (events : list Event) :
  existsb is_call events = false -> filter is_generate events = [].
Proof.
  induction events as [|e events IH]; simpl; [reflexivity|].
  intros H. apply orb_false_elim in H as [He Hes].
  destruct e; simpl in *; try discriminate; now apply IH.
Qed.

Section Loops.
Context {tokenizer : Tokenizer} {model : LocalModel}.
Variable config : Server.Config.


Lemma server_generate_once (full_prompt : pystr) :
  filter is_generate
         (snd (Server.execute_translation_prompt config full_prompt))
  = [CallGenerate full_prompt].
Proof.
  unfold Server.execute_translation_prompt. cbn [snd].
  destruct (_ <? _); reflexivity.
Qed.


Lemma server_events_one_call term c :
  filter is_generate (server_events config c term)
  = [CallGenerate (server_prompt config c term)].
Proof.
  unfold server_events. rewrite !filter_app.
  pose proof (truncate_log_no_call (ServerBudgeter config) c term) as Hcut.
  cbn [truncate] in Hcut.
  rewrite (filter_generate_no_call _ Hcut), server_generate_once.
  reflexivity.
Qed.

(** A row that is not blank and whose lookup raises: the exception leaves
    the row. *)
Lemma script_row_raises df volume_no term sec e :
  blank term = false -> blank sec = false ->
  Script.resolve df volume_no sec = inl e ->
  Script.process_row df volume_no term sec = inl e.
Proof.
  intros Ht Hs Hres. unfold Script.process_row. rewrite Ht, Hs, Hres.
  reflexivity.
Qed.

Lemma server_row_raises df volume_no st row_term sec e :
  blank (Server.remove_leading_treatment row_term) = false ->
  blank sec = false ->
  Server.resolve df volume_no sec = inl e ->
  Server.process_row config df volume_no st row_term sec = inl (e, st).
Proof.
  intros Ht Hs Hres. unfold Server.process_row. rewrite Ht, Hs, Hres.
  reflexivity.
Qed.




(** One row of the server: either it is not blank and its lookup raises,
    which leaves the state as it was, or it adds the records of
    [server_row_records] and calls the model once per record added. *)
Lemma server_row_cases df volume_no st row_term sec :
  match Server.process_row config df volume_no st row_term sec with
  | inl (e, st') =>
      st' = st
      /\ server_row_live (row_term, sec) = true
      /\ Server.resolve df volume_no sec = inl e
  | inr st' =>
      (if server_row_live (row_term, sec)
       then exists r, Server.resolve df volume_no sec = inr r
       else st' = st)
      /\ Server.translation_results st'
         = Server.translation_results st
           ++ server_row_records config df volume_no (row_term, sec)
      /\ List.length (filter is_generate (Server.trace st'))
         = (List.length (filter is_generate (Server.trace st))
            + List.length
                (server_row_records config df volume_no (row_term, sec)))%nat
  end.
Proof.
  unfold server_row_records, server_row_live. cbn [fst snd].
  set (term := Server.remove_leading_treatment row_term).
  destruct (blank term || blank sec) eqn:Hb.
  { unfold Server.process_row. fold term. rewrite Hb.
    rewrite app_nil_r. cbn. auto. }
  apply orb_false_elim in Hb as [Ht Hs]. cbn [negb].
  destruct (Server.resolve df volume_no sec) as [e|r] eqn:Hres.
  { rewrite (server_row_raises df volume_no st row_term sec e Ht Hs Hres).
    auto. }
  destruct (note_resolution_trace volume_no term sec r st)
    as (noted & Htrace & Hno).
  destruct (contextParagraph r) as [c|] eqn:Hc.
  - rewrite (server_row_translated config df volume_no st row_term sec r c
               Ht Hs Hres Hc).
    split; [eauto|].
    cbn [Server.translation_results Server.trace Server.append_result
         Server.log_events].
    fold term. rewrite note_resolution_results, Htrace.
    split; [reflexivity|].
    rewrite !filter_app, (filter_generate_no_call _ Hno),
      server_events_one_call, !length_app. cbn. lia.
  - unfold contextParagraph in Hc.
    destruct (context_row_of r) as [row|] eqn:Hr.
    + rewrite (server_row_skipped config df volume_no st row_term sec r row
                 Ht Hs Hres Hr Hc).
      split; [eauto|].
      cbn [Server.translation_results Server.trace Server.log_events].
      fold term. rewrite note_resolution_results, Htrace, app_nil_r.
      split; [reflexivity|].
      rewrite !filter_app, (filter_generate_no_call _ Hno), !length_app.
      cbn. lia.
    + rewrite (server_row_unresolved config df volume_no st row_term sec r
                 Ht Hs Hres Hr).
      split; [eauto|].
      fold term. rewrite note_resolution_results, Htrace, app_nil_r.
      split; [reflexivity|].
      rewrite !filter_app, (filter_generate_no_call _ Hno), !length_app.
      cbn. lia.
Qed.

(** Whether the lookup of the server raises depends on the table and on the
    volume of the file only, not on the section asked for. *)
Lemma server_resolve_raises_any_section df volume_no sec sec' e :
  Server.resolve df volume_no sec = inl e ->
  Server.resolve df volume_no sec' = inl e.
Proof. rewrite !server_resolve_raises. auto. Qed.

(** The row loop of the server: either a lookup raises, at the first row
    that is not blank, or the loop handles its rows independently and in
    order, and calls the model exactly once per record added. *)
Lemma server_rows_cases df volume_no rows st :
  match Server.process_rows config df volume_no rows st with
  | inl (e, st') =>
      st' = st
      /\ existsb server_row_live rows = true
      /\ forall sec, Server.resolve df volume_no sec = inl e
  | inr st' =>
      (existsb server_row_live rows = true ->
       forall sec, exists r, Server.resolve df volume_no sec = inr r)
      /\ Server.translation_results st'
         = Server.translation_results st
           ++ flat_map (server_row_records config df volume_no) rows
      /\ List.length (filter is_generate (Server.trace st'))
         = (List.length (filter is_generate (Server.trace st))
            + List.length
                (flat_map (server_row_records config df volume_no) rows))%nat
  end.
Proof.
  revert st. induction rows as [|[term sec] rows IH]; intros st.
  - cbn [Server.process_rows flat_map existsb]. rewrite app_nil_r.
    split; [discriminate|]. split; [reflexivity | cbn; lia].
  - cbn [Server.process_rows flat_map existsb].
    pose proof (server_row_cases df volume_no st term sec) as Hrow.
    destruct (Server.process_row config df volume_no st term sec)
      as [[e st1]|st1].
    + destruct Hrow as (-> & Hlive & Hres).
      split; [reflexivity|]. split; [now rewrite Hlive|].
      intros sec'. eapply server_resolve_raises_any_section; eauto.
    + destruct Hrow as (Hlive & Hrec & Hcount).
      specialize (IH st1).
      destruct (Server.process_rows config df volume_no rows st1)
        as [[e st']|st'].
      * destruct IH as (-> & Hrest & Hres).
        destruct (server_row_live (term, sec)).
        { destruct Hlive as (r & Hr). rewrite (Hres sec) in Hr.
          discriminate Hr. }
        split; [exact Hlive|]. split; [exact Hrest | exact Hres].
      * destruct IH as (Hsome & H1 & H2).
        split.
        { destruct (server_row_live (term, sec)).
          - intros _ sec'. destruct Hlive as (r & Hr).
            destruct (Server.resolve df volume_no sec') as [e|r'] eqn:E;
              [|eauto].
            rewrite (server_resolve_raises_any_section df volume_no sec' sec e E)
              in Hr. discriminate Hr.
          - exact Hsome. }
        rewrite H1, H2, Hrec, Hcount, <- app_assoc, !length_app.
        split; [reflexivity | lia].
Qed.

(** One row of the server on a table that has a row, for a file volume
    that fits [int64]. *)
Lemma server_row_outcome df volume_no st row_term sec :
  df <> [] ->
  in_int64 volume_no = true ->
  exists st',
    Server.process_row config df volume_no st row_term sec = inr st'
    /\ Server.translation_results st'
       = Server.translation_results st
         ++ server_row_records config df volume_no (row_term, sec)
    /\ List.length (filter is_generate (Server.trace st'))
       = (List.length (filter is_generate (Server.trace st))
          + List.length
              (server_row_records config df volume_no (row_term, sec)))%nat.
Proof.
  intros Hne Hfit.
  pose proof (server_row_cases df volume_no st row_term sec) as H.
  destruct (Server.process_row config df volume_no st row_term sec)
    as [[e st']|st'].
  - destruct H as (_ & _ & H).
    apply server_resolve_raises in H as (_ & [(H & _)|(_ & H & _)]);
      [contradiction | congruence].
  - exists st'. split; [reflexivity|]. apply H.
Qed.



End Loops.

(* ================================================================== *)
(** ** What the server's row loop keeps true *)
(* ================================================================== *)

Section Invariant.
Context {tokenizer : Tokenizer} {model : LocalModel}.
Variable config : Server.Config.

Lemma server_row_records_volume df volume_no row :
  Forall (fun r => Server.rec_volume r = volume_no)
         (server_row_records config df volume_no row).
Proof.
  unfold server_row_records.
  destruct (_ || _); [constructor|].
  destruct (Server.resolve df volume_no (snd row)) as [e|r]; [constructor|].
  destruct (contextParagraph r); repeat constructor.
Qed.

Lemma first_with_rows_of_volume df volume_no row :
  FirstWith (has_volume volume_no) df row -> rows_of_volume df volume_no <> [].
Proof.
  intros (before & after & -> & Hrow & _) H.
  rewrite rows_of_volume_none in H.
  apply (H row); [apply in_or_app; right; now left | exact Hrow].
Qed.

Lemma initial_state_consistent df volume_no :
  core_consistent df volume_no (Server.initial_state volume_no).
Proof.
  unfold core_consistent. cbn.
  split; [split; [discriminate | lia]|].
  split; [lia|]. split; [lia|]. split; [reflexivity | constructor].
Qed.

(** One row keeps the state consistent. *)
Lemma server_row_consistent df volume_no st row_term sec st' :
  core_consistent df volume_no st ->
  Server.process_row config df volume_no st row_term sec = inr st' ->
  core_consistent df volume_no st'.
Proof.
  intros Hst Hrow.
  set (term := Server.remove_leading_treatment row_term) in *.
  destruct (blank term || blank sec) eqn:Hb.
  { unfold Server.process_row in Hrow. fold term in Hrow.
    rewrite Hb in Hrow. now injection Hrow as <-. }
  apply orb_false_elim in Hb as [Ht Hs].
  destruct (Server.resolve df volume_no sec) as [e|r] eqn:Hres.
  { rewrite (server_row_raises config df volume_no st row_term sec e
               Ht Hs Hres) in Hrow. discriminate Hrow. }
  pose proof (server_row_cases config df volume_no st row_term sec) as Hcases.
  rewrite Hrow in Hcases. destruct Hcases as (_ & Hres1 & _).
  destruct (server_row_notes config df volume_no st row_term sec r Ht Hs Hres)
    as (st2 & rest & E2 & _ & Hc1 & Hc2 & Hv & Hf).
  rewrite Hrow in E2. injection E2 as <-.
  pose proof (server_resolve_cases df volume_no sec r Hres) as Hcase.
  destruct Hst as (Hflag & Hl1 & Hl2 & Hvol & Hrecs).
  unfold core_consistent.
  rewrite Hres1, Hc1, Hc2, Hv, Hf.
  assert (Hall : Forall (fun r0 => Server.rec_volume r0 = volume_no)
                   (Server.translation_results st
                    ++ server_row_records config df volume_no (row_term, sec))).
  { apply Forall_app. split; [exact Hrecs|].
    apply server_row_records_volume. }
  destruct r as [row|row|nearest row| |];
    cbn [Server.note_resolution Server.fallback_used
         Server.fallback_level1_count Server.fallback_level2_count
         Server.actual_volume_used] in *; try contradiction.
  - split; [exact Hflag|]. split; [exact Hl1|]. split; [exact Hl2|].
    split; [exact Hvol | exact Hall].
  - destruct Hcase as (_ & Hfirst).
    pose proof (first_with_rows_of_volume df volume_no row Hfirst) as Hrows.
    split; [split; [lia | reflexivity]|].
    split; [intros _; exact Hrows|].
    split; [exact Hl2|]. split; [exact Hvol | exact Hall].
  - destruct Hcase as (Hrows & Hmin & _).
    split; [split; [lia | reflexivity]|].
    split; [exact Hl1|].
    split; [intros _; split; assumption|].
    split; [lia | exact Hall].
Qed.

Lemma server_rows_consistent df volume_no rows st st' :
  core_consistent df volume_no st ->
  Server.process_rows config df volume_no rows st = inr st' ->
  core_consistent df volume_no st'.
Proof.
  revert st. induction rows as [|[term sec] rows IH]; intros st Hst.
  - cbn [Server.process_rows]. intros H. now injection H as <-.
  - cbn [Server.process_rows].
    destruct (Server.process_row config df volume_no st term sec)
      as [[e st1]|st1] eqn:Hrow; [discriminate|].
    apply IH. eapply server_row_consistent; eauto.
Qed.

Lemma log_events_consistent df volume_no events st :
  core_consistent df volume_no st ->
  core_consistent df volume_no (Server.log_events events st).
Proof. intros H. exact H. Qed.

(** X5.  In what [_process_file_core_translation] returns for a file, the
    fallback flag is set exactly when a fallback was counted, the two
    counters are never both positive, every record carries the volume of the
    file, and the volume reported as used is the file's own unless a level-2
    fallback was counted.  Then the table lacks the file's volume and the
    volume used is one of the table; it is one of least absolute distance
    from the file's when nothing wraps in the int64 search (the volumes fit
    int64 and differ from the file's by less than 2^63). *)
Theorem server_fallbacks_of_one_level df volume_no target_df st :
  Server.process_file_core_translation config df volume_no target_df = inr st ->
  (Server.fallback_used st = true
   <-> (0 < Server.fallback_level1_count st
            + Server.fallback_level2_count st)%nat)
  /\ (Server.fallback_level1_count st = 0%nat
      \/ Server.fallback_level2_count st = 0%nat)
  /\ (Server.fallback_level2_count st = 0%nat ->
      Server.actual_volume_used st = volume_no)
  /\ ((0 < Server.fallback_level2_count st)%nat ->
      (forall r, In r df -> no r <> volume_no)
      /\ (exists r, In r df /\ no r = Server.actual_volume_used st)
      /\ (no_wrap volume_no df ->
          forall r, In r df ->
            Z.abs (Server.actual_volume_used st - volume_no)
            <= Z.abs (no r - volume_no)))
  /\ Forall (fun r => Server.rec_volume r = volume_no)
            (Server.translation_results st).
Proof.
  unfold Server.process_file_core_translation.
  destruct (Server.process_rows config df volume_no (valid_rows target_df)
              (Server.initial_state volume_no)) as [[e st0]|st0] eqn:Hrows;
    [discriminate|].
  pose proof (server_rows_consistent df volume_no _ _ st0
                (initial_state_consistent df volume_no) Hrows) as Hst0.
  intros Hst.
  assert (Hcons : core_consistent df volume_no st).
  { destruct (_ || _); injection Hst as <-;
      [apply log_events_consistent|]; exact Hst0. }
  clear Hst Hst0 Hrows.
  destruct Hcons as (Hflag & Hl1 & Hl2 & Hvol & Hrecs).
  split; [exact Hflag|]. split.
  { destruct (Server.fallback_level1_count st) as [|n1]; [now left|].
    destruct (Server.fallback_level2_count st) as [|n2]; [now right|].
    exfalso. destruct Hl2 as (Hnone & _); [lia|].
    apply Hl1; [lia | exact Hnone]. }
  split; [exact Hvol|]. split; [|exact Hrecs].
  intros Hpos. destruct (Hl2 Hpos) as (Hnone & Hmin).
  split; [apply rows_of_volume_none, Hnone|].
  assert (Hne : df <> []).
  { intros ->. discriminate Hmin. }
  destruct (nearest_choice df volume_no Hne) as (m & b & a & Heq & Hm & Hb & Ha).
  rewrite Hm in Hmin. injection Hmin as Hmin. rewrite <- Hmin.
  destruct (nearest_choice_spec df volume_no m b a Heq Hb Ha)
    as ((rm & Hrm & Hnm) & H2 & _).
  split; [eauto|].
  intros (_ & Hrange) r Hr.
  rewrite <- (distance_exact volume_no (no r)) by apply (Hrange r Hr).
  rewrite <- (distance_exact volume_no m)
    by (rewrite <- Hnm; apply (Hrange rm Hrm)).
  now apply H2.
Qed.

End Invariant.

(* ================================================================== *)
(** ** Files and batches of the server *)
(* ================================================================== *)

Lemma status_eqb_eq (a b : Server.Status) : status_eqb a b = true <-> a = b.
Proof. destruct a, b; simpl; split; congruence. Qed.

Section Files.
Context {tokenizer : Tokenizer} {model : LocalModel}.
Variable config : Server.Config.

(** What the core returns, seen from its callers: either a lookup raised at
    the first row that is not blank, before any call of the model, or the
    results are the records of the rows in order, one call of the model
    each. *)
Lemma server_core_cases df volume_no target_df :
  match Server.process_file_core_translation config df volume_no target_df with
  | inl (e, st) =>
      st = Server.initial_state volume_no
      /\ existsb server_row_live (valid_rows target_df) = true
      /\ forall sec, Server.resolve df volume_no sec = inl e
  | inr st =>
      (existsb server_row_live (valid_rows target_df) = true ->
       forall sec, exists r, Server.resolve df volume_no sec = inr r)
      /\ Server.translation_results st
         = flat_map (server_row_records config df volume_no)
                    (valid_rows target_df)
      /\ List.length (filter is_generate (Server.trace st))
         = List.length (Server.translation_results st)
  end.
Proof.
  unfold Server.process_file_core_translation.
  pose proof (server_rows_cases config df volume_no (valid_rows target_df)
                (Server.initial_state volume_no)) as H.
  destruct (Server.process_rows config df volume_no (valid_rows target_df)
              (Server.initial_state volume_no)) as [[e st]|st].
  - exact H.
  - destruct H as (Hsome & Hres & Hcount).
    cbn [Server.initial_state Server.translation_results Server.trace
         app filter List.length Nat.add] in Hres, Hcount.
    destruct ((0 <? Server.fallback_level1_count st)%nat
              || (0 <? Server.fallback_level2_count st)%nat).
    + split; [exact Hsome|].
      cbn [Server.log_events Server.translation_results Server.trace].
      split; [exact Hres|].
      rewrite filter_app, length_app, Hcount, Hres. cbn. lia.
    + split; [exact Hsome|]. split; [exact Hres|]. now rewrite Hcount, Hres.
Qed.


Lemma server_read_file_results df volume_no target_df :
  Server.status
    (Server.process_file_translation_for_merge config df volume_no target_df)
  <> Server.error ->
  Server.file_results
    (Server.process_file_translation_for_merge config df volume_no target_df)
  = flat_map (server_row_records config df volume_no) (valid_rows target_df)
  /\ List.length
       (filter is_generate
          (Server.file_trace
             (Server.process_file_translation_for_merge config df volume_no
                target_df)))
     = List.length
         (Server.file_results
            (Server.process_file_translation_for_merge config df volume_no
               target_df)).
Proof.
  unfold Server.process_file_translation_for_merge.
  pose proof (server_core_cases df volume_no target_df) as H.
  destruct (Server.process_file_core_translation config df volume_no target_df)
    as [[e st]|st]; cbn [Server.status Server.file_results Server.file_trace].
  - intros Hst. contradiction.
  - intros _. destruct H as (_ & Hres & Hcount). split; assumption.
Qed.


(** X7.  In the result of a file that did not fail, the number of
    translations equals the number of calls to the model in what the file
    logged: every call is recorded and every record comes from one call. *)
Theorem server_file_calls_match_results df volume_no target_df :
  Server.status
    (Server.process_file_translation_for_merge config df volume_no target_df)
  <> Server.error ->
  List.length
    (filter is_generate
       (Server.file_trace
          (Server.process_file_translation_for_merge config df volume_no
             target_df)))
  = List.length
      (Server.file_results
         (Server.process_file_translation_for_merge config df volume_no
            target_df)).
Proof.
  intros Hst. apply (server_read_file_results df volume_no target_df Hst).
Qed.

End Files.

Lemma min_list_spec (l : list Z) (m : Z) :
  min_list l = inr m -> In m l /\ forall x, In x l -> m <= x.
Proof.
  unfold min_list. intros H. split; [eapply min_key_In; eauto|].
  destruct l as [|a t]; [discriminate|]. cbn [min_key] in H.
  injection H as <-.
  destruct (min_from_first Z (fun x => x) t a) as (before & after & Heq & Hb & Ha).
  rewrite Forall_forall in Hb, Ha.
  intros x Hx. rewrite Heq in Hx.
  apply in_app_or in Hx as [Hx|[Hx|Hx]].
  - specialize (Hb x Hx). lia.
  - lia.
  - now apply Ha.
Qed.

Lemma fold_max_spec (t : list Z) (a : Z) :
  (fold_left Z.max t a = a \/ In (fold_left Z.max t a) t)
  /\ a <= fold_left Z.max t a
  /\ forall x, In x t -> x <= fold_left Z.max t a.
Proof.
  revert a. induction t as [|y t IH]; intros a; cbn [fold_left].
  - split; [now left|]. split; [lia | intros x []].
  - destruct (IH (Z.max a y)) as (Hin & Hle & Hall).
    split; [|split].
    + destruct Hin as [E|Hin]; [|right; now right].
      rewrite E. destruct (Z.max_spec a y) as [[_ ->]|[_ ->]];
        [right; now left | now left].
    + lia.
    + intros x [<-|Hx]; [lia | now apply Hall].
Qed.

Lemma max_list_spec (l : list Z) (m : Z) :
  max_list l = inr m -> In m l /\ forall x, In x l -> x <= m.
Proof.
  destruct l as [|a t]; [discriminate|]. cbn [max_list].
  intros H. injection H as <-.
  destruct (fold_max_spec t a) as (Hin & Hle & Hall).
  split.
  - destruct Hin as [->|Hin]; [now left | now right].
  - intros x [<-|Hx]; [exact Hle | now apply Hall].
Qed.

Section Batches.
Context {tokenizer : Tokenizer} {model : LocalModel}.
Variable config : Server.Config.
Variable df : list ControlRecord.

Let result_of := file_result config df.
Let has := file_has config df.

Lemma file_status_cases (file : Z * list TargetRow) :
  (Server.status (result_of file) = Server.error
   /\ Server.file_results (result_of file) = [])
  \/ Server.status (result_of file) = Server.success
  \/ Server.status (result_of file) = Server.warning.
Proof.
  unfold result_of, file_result, Server.process_file_translation_for_merge.
  destruct (Server.process_file_core_translation config df (fst file)
              (snd file)) as [[e st]|st]; cbn [Server.status Server.file_results].
  - left. auto.
  - right. destruct (Server.fallback_used st); auto.
Qed.

Lemma batch_fold (files : list (Z * list TargetRow)) (b : Server.Batch) :
  let b' :=
    fold_left (fun b file => Server.add_file (fst file) (result_of file) b)
              files b in
  Server.all_translation_results b'
  = Server.all_translation_results b
    ++ flat_map (fun file => Server.file_results (result_of file)) files
  /\ Server.volume_numbers b'
     = Server.volume_numbers b
       ++ map fst (filter (fun file => negb (has Server.error file)) files)
  /\ Server.error_count b'
     = (Server.error_count b
        + List.length (filter (has Server.error) files))%nat
  /\ Server.warning_count b'
     = (Server.warning_count b
        + List.length (filter (has Server.warning) files))%nat.
Proof.
  revert b. induction files as [|file files IH]; intros b; cbn zeta.
  - cbn. rewrite !app_nil_r. repeat split; lia.
  - cbn [fold_left flat_map filter].
    specialize (IH (Server.add_file (fst file) (result_of file) b)).
    cbn zeta in IH. destruct IH as (H1 & H2 & H3 & H4).
    rewrite H1, H2, H3, H4. clear H1 H2 H3 H4.
    unfold has, file_has. fold (result_of file). unfold Server.add_file.
    destruct (file_status_cases file) as [(Hs & Hr)|[Hs|Hs]]; rewrite Hs;
      cbn [status_eqb negb Server.all_translation_results
           Server.volume_numbers Server.error_count Server.warning_count
           map List.length].
    + rewrite Hr, app_nil_l. repeat split; lia.
    + rewrite <- !app_assoc. repeat split; lia.
    + rewrite <- !app_assoc. repeat split; lia.
Qed.

(** What [process_all_files] collects: every file is processed; the
    translations are those of the files in order (a failed file gives none);
    the volumes kept are those of the files that did not fail; and the error
    and warning counts are the numbers of files with those statuses, so the
    failed and the kept files add up to all files. *)
Lemma batch_collects (files : list (Z * list TargetRow)) :
  let b := Server.process_all_files config df files in
  Server.all_translation_results b
  = flat_map (fun file => Server.file_results (file_result config df file))
             files
  /\ Server.volume_numbers b
     = map fst (filter (fun file => negb (file_has config df Server.error file))
                       files)
  /\ Server.error_count b
     = List.length (filter (file_has config df Server.error) files)
  /\ Server.warning_count b
     = List.length (filter (file_has config df Server.warning) files)
  /\ (Server.error_count b + List.length (Server.volume_numbers b))%nat
     = List.length files.
Proof.
  cbn zeta. unfold Server.process_all_files.
  destruct (batch_fold files
              {| Server.all_translation_results := [];
                 Server.volume_numbers := [];
                 Server.error_count := 0; Server.warning_count := 0;
                 Server.batch_trace := []; Server.batch_reports := [] |})
    as (H1 & H2 & H3 & H4).
  cbn zeta in H1, H2, H3, H4. unfold result_of, has, file_result in *.
  fold (file_result config df) in *.
  rewrite H1, H2, H3, H4. cbn [Server.all_translation_results
    Server.volume_numbers Server.error_count Server.warning_count app Nat.add].
  do 4 (split; [reflexivity|]).
  rewrite length_map. clear.
  induction files as [|file files IH]; [reflexivity|].
  cbn [filter List.length].
  destruct (file_has config df Server.error file); cbn [negb List.length]; lia.
Qed.

(** X8.  What [process_all_files] collects: every file is processed; the
    translations are those of the files in order (a failed file gives none);
    the volumes kept are those of the files that did not fail; and the error
    and warning counts are the numbers of files with those statuses, so the
    failed and the kept files add up to all files. *)
Theorem batch_accounts (files : list (Z * list TargetRow)) :
  let b := Server.process_all_files config df files in
  Server.all_translation_results b
  = flat_map (fun file => Server.file_results (file_result config df file))
             files
  /\ Server.volume_numbers b
     = map fst (filter (fun file => negb (file_has config df Server.error file))
                       files)
  /\ Server.error_count b
     = List.length (filter (file_has config df Server.error) files)
  /\ Server.warning_count b
     = List.length (filter (file_has config df Server.warning) files)
  /\ (Server.error_count b + List.length (Server.volume_numbers b))%nat
     = List.length files.
Proof. exact (batch_collects files). Qed.

Lemma has_cases (file : Z * list TargetRow) :
  (has Server.error file = true /\ has Server.warning file = false
   /\ has Server.success file = false)
  \/ (has Server.error file = false /\ has Server.warning file = true
      /\ has Server.success file = false)
  \/ (has Server.error file = false /\ has Server.warning file = false
      /\ has Server.success file = true
      /\ Server.status (result_of file) = Server.success).
Proof.
  unfold has, file_has. fold (result_of file).
  destruct (file_status_cases file) as [(Hs & _)|[Hs|Hs]]; rewrite Hs;
    cbn [status_eqb]; auto.
  right. right. auto.
Qed.

Lemma has_success (file : Z * list TargetRow) :
  has Server.success file = true
  <-> Server.status (result_of file) = Server.success.
Proof. unfold has, file_has. fold (result_of file). apply status_eqb_eq. Qed.

Lemma kept_files_split (files : list (Z * list TargetRow)) :
  List.length (filter (fun file => negb (has Server.error file)) files)
  = (List.length (filter (has Server.warning) files)
     + List.length (filter (has Server.success) files))%nat.
Proof.
  induction files as [|file files IH]; [reflexivity|].
  cbn [filter].
  destruct (has_cases file) as [(E1 & E2 & E3)|[(E1 & E2 & E3)|(E1 & E2 & E3 & _)]];
    rewrite E1, E2, E3; cbn [negb List.length]; lia.
Qed.

Lemma none_with_status (s : Server.Status)
  (files : list (Z * list TargetRow)) :
  List.length (filter (has s) files) = 0%nat
  <-> existsb (has s) files = false.
Proof.
  induction files as [|file fs IH]; [cbn; tauto|].
  cbn [filter existsb]. destruct (has s file); cbn [List.length orb].
  - split; [lia | discriminate].
  - exact IH.
Qed.

Lemma all_success (files : list (Z * list TargetRow)) :
  Forall (fun file => Server.status (result_of file) = Server.success) files
  <-> existsb (has Server.error) files = false
      /\ existsb (has Server.warning) files = false.
Proof.
  induction files as [|file fs IH]; [cbn; intuition|].
  cbn [existsb]. rewrite Forall_cons_iff, IH, <- has_success.
  destruct (has_cases file)
    as [(E1 & E2 & E3)|[(E1 & E2 & E3)|(E1 & E2 & E3 & _)]];
    rewrite E1, E2, E3; cbn [orb]; intuition congruence.
Qed.

Lemma overall_status_meaning (files : list (Z * list TargetRow)) :
  let overall :=
    Server.overall_status (Server.process_all_files config df files) in
  (overall = Server.success
   <-> Forall (fun file =>
                 Server.status (file_result config df file) = Server.success)
              files)
  /\ (overall = Server.error
      <-> existsb (file_has config df Server.error) files = true
          /\ existsb (file_has config df Server.success) files = false).
Proof.
  cbn zeta. unfold Server.overall_status.
  destruct (batch_collects files) as (_ & Hv & He & Hw & _).
  cbn zeta in Hv, He, Hw. rewrite Hv, He, Hw, length_map.
  fold has. rewrite kept_files_split.
  replace (List.length (filter (has Server.warning) files)
           + List.length (filter (has Server.success) files)
           - List.length (filter (has Server.warning) files))%nat
    with (List.length (filter (has Server.success) files)) by lia.
  pose proof (fun s => none_with_status s files) as Hcount.
  pose proof (all_success files) as Hall.
  fold result_of. rewrite Hall.
  destruct (List.length (filter (has Server.error) files)) as [|ne] eqn:Ee;
    destruct (List.length (filter (has Server.warning) files)) as [|nw] eqn:Ew;
    destruct (List.length (filter (has Server.success) files)) as [|ns] eqn:Es;
    cbn [Nat.eqb Nat.ltb Nat.leb andb];
    try (apply Hcount in Ee); try (apply Hcount in Ew);
    try (apply Hcount in Es);
    try (assert (He1 : existsb (has Server.error) files = true)
           by (destruct (existsb (has Server.error) files) eqn:X;
               [reflexivity | apply Hcount in X; lia]));
    try (assert (Hw1 : existsb (has Server.warning) files = true)
           by (destruct (existsb (has Server.warning) files) eqn:X;
               [reflexivity | apply Hcount in X; lia]));
    try (assert (Hs1 : existsb (has Server.success) files = true)
           by (destruct (existsb (has Server.success) files) eqn:X;
               [reflexivity | apply Hcount in X; lia]));
    split; split; intros H; try discriminate; try tauto;
    try (destruct H; congruence).
Qed.

(** X9.  [process_all_files] computes no overall status when it is given no
    file.  Otherwise the status is [success] exactly when every file came
    back with [success], and [error] exactly when some file failed and no
    file came back with [success] (files with warnings do not count). *)
Theorem batch_status_meaning (files : list (Z * list TargetRow)) :
  (Server.batch_status config df files = None <-> files = [])
  /\ (Server.batch_status config df files = Some Server.success
      <-> files <> []
          /\ Forall (fun file =>
                       Server.status (file_result config df file)
                       = Server.success) files)
  /\ (Server.batch_status config df files = Some Server.error
      <-> existsb (file_has config df Server.error) files = true
          /\ existsb (file_has config df Server.success) files = false).
Proof.
  destruct (overall_status_meaning files) as (Hs & He). cbn zeta in Hs, He.
  destruct files as [|file files].
  - cbn. split; [tauto|]. split; split; intros H; try discriminate;
      destruct H; congruence.
  - set (fs := file :: files) in *. unfold Server.batch_status. fold fs.
    split; [split; intros H; discriminate H|].
    split.
    + rewrite <- Hs. split.
      * intros H. injection H as H. split; [discriminate | exact H].
      * intros (_ & H). now rewrite H.
    + rewrite <- He. split; intros H; [now injection H | now rewrite H].
Qed.

(** A batch that collected a translation kept the volume of some file. *)
Lemma results_need_volume (files : list (Z * list TargetRow)) :
  filter (fun file => negb (has Server.error file)) files = [] ->
  flat_map (fun file => Server.file_results (result_of file)) files = [].
Proof.
  induction files as [|file files IH]; [reflexivity|].
  cbn [filter flat_map]. unfold has at 1, file_has. fold (result_of file).
  destruct (file_status_cases file) as [(Hs & Hr)|[Hs|Hs]]; rewrite Hs;
    cbn [status_eqb negb]; try discriminate.
  intros H. now rewrite Hr, (IH H).
Qed.

(** X10.  The merged report is generated exactly when some translation was
    collected, and then generating it never raises: the volume list is not
    empty, the rows written are all the translations, and the name carries
    the one volume, or the least and the greatest of the volumes kept. *)
Theorem merged_output_never_raises (files : list (Z * list TargetRow)) :
  let b := Server.process_all_files config df files in
  (Server.merged_output b = None <-> Server.all_translation_results b = [])
  /\ (Server.all_translation_results b <> [] ->
      exists name,
        Server.merged_output b
        = Some (inr (name, Server.all_translation_results b))
        /\ match name with
           | Server.SingleName vol => Server.volume_numbers b = [vol]
           | Server.BatchName min_vol max_vol =>
               In min_vol (Server.volume_numbers b)
               /\ In max_vol (Server.volume_numbers b)
               /\ forall vol, In vol (Server.volume_numbers b) ->
                              min_vol <= vol <= max_vol
           end).
Proof.
  cbn zeta. destruct (batch_collects files) as (Hr & Hv & _).
  cbn zeta in Hr, Hv.
  set (b := Server.process_all_files config df files) in *.
  unfold Server.merged_output.
  destruct (Server.all_translation_results b) as [|r0 rs] eqn:Hres.
  - split; [tauto|]. intros H. contradiction.
  - split; [split; discriminate|]. intros _.
    assert (Hvol : Server.volume_numbers b <> []).
    { intros E. rewrite Hv in E. apply map_eq_nil in E.
      fold has in E. apply results_need_volume in E.
      unfold result_of in E. rewrite <- Hr in E. discriminate E. }
    unfold Server.generate_merged_output.
    destruct (Server.volume_numbers b) as [|v0 [|v1 vs]] eqn:Ev;
      [contradiction| |].
    + exists (Server.SingleName v0). split; reflexivity.
    + destruct (min_list (v0 :: v1 :: vs)) as [e|lo] eqn:Hmin;
        [discriminate Hmin|].
      destruct (max_list (v0 :: v1 :: vs)) as [e|hi] eqn:Hmax;
        [discriminate Hmax|].
      exists (Server.BatchName lo hi). split; [reflexivity|].
      destruct (min_list_spec _ _ Hmin) as (Hlo & Hle).
      destruct (max_list_spec _ _ Hmax) as (Hhi & Hge).
      split; [exact Hlo|]. split; [exact Hhi|].
      intros vol Hin. split; [now apply Hle | now apply Hge].
Qed.

End Batches.

(* ================================================================== *)
(** ** The report of the script *)
(* ================================================================== *)

Lemma first_item_ascending (l : list Z) :
  StronglySorted Z.le l -> l <> [] ->
  exists lo, first_item l = Some lo /\ In lo l /\ forall x, In x l -> lo <= x.
Proof.
  intros Hs Hne. destruct l as [|a t]; [contradiction|].
  exists a. split; [reflexivity|]. split; [now left|].
  inversion Hs as [|? ? _ Hall]; subst. rewrite Forall_forall in Hall.
  intros x [<-|Hx]; [lia | now apply Hall].
Qed.

Lemma last_item_ascending (l : list Z) :
  StronglySorted Z.le l -> l <> [] ->
  exists hi, last_item l = Some hi /\ In hi l /\ forall x, In x l -> x <= hi.
Proof.
  induction l as [|a t IH]; intros Hs Hne; [contradiction|].
  inversion Hs as [|? ? Ht Hall]; subst. rewrite Forall_forall in Hall.
  destruct t as [|b t'].
  - exists a. split; [reflexivity|]. split; [now left|].
    intros x [<-|[]]. lia.
  - destruct (IH Ht) as (hi & Hlast & Hin & Hmax); [discriminate|].
    exists hi. split; [exact Hlast|]. split; [now right|].
    intros x [<-|Hx]; [|now apply Hmax].
    specialize (Hall hi Hin). lia.
Qed.

(** X11.  The script names its report only when a term was translated, and
    then reading the first and last volume never fails: the range in the
    name runs from the least to the greatest volume among the records. *)
Theorem report_range_covers (results : list Script.TranslationRecord) :
  (Script.report_range results = None <-> results = [])
  /\ (results <> [] ->
      exists min_no max_no,
        Script.report_range results = Some (Some min_no, Some max_no)
        /\ (exists r, In r results /\ Script.rec_volume r = min_no)
        /\ (exists r, In r results /\ Script.rec_volume r = max_no)
        /\ forall r, In r results ->
             min_no <= Script.rec_volume r <= max_no).
Proof.
  destruct results as [|r0 rs].
  - split; [split; reflexivity|]. intros H. contradiction.
  - split; [split; discriminate|]. intros _.
    set (results := r0 :: rs).
    set (volumes := sorted (unique (map Script.rec_volume results))).
    assert (Hin : forall v, In v volumes
                            <-> exists r, In r results
                                          /\ Script.rec_volume r = v).
    { intros v. unfold volumes. rewrite sorted_In, unique_In, in_map_iff.
      split; intros (r & H1 & H2); exists r; auto. }
    assert (Hne : volumes <> []).
    { intros E. assert (H : In (Script.rec_volume r0) volumes).
      { apply Hin. exists r0. split; [now left | reflexivity]. }
      rewrite E in H. exact H. }
    destruct (first_item_ascending volumes (sorted_ascending _) Hne)
      as (lo & Hfirst & Hlo & Hle).
    destruct (last_item_ascending volumes (sorted_ascending _) Hne)
      as (hi & Hlast & Hhi & Hge).
    exists lo, hi.
    change (Script.report_range results)
      with (Some (first_item volumes, last_item volumes)).
    rewrite Hfirst, Hlast. split; [reflexivity|].
    split; [now apply Hin|]. split; [now apply Hin|].
    intros r Hr.
    assert (Hv : In (Script.rec_volume r) volumes) by (apply Hin; eauto).
    split; [now apply Hle | now apply Hge].
Qed.

(* ================================================================== *)
(** ** The budget *)
(* ================================================================== *)

Section BudgetKept.
Context {tokenizer : Tokenizer}.

(** With a budget that is not negative and a tokenizer that encodes
    the decoded prefix back to the same tokens, the context the budgeter
    returns fits: its tokens and those of the base prompt together are at
    most the limit. *)
Lemma budget_fits (b : Budgeter) (context_paragraph term : pystr) :
  0 <= available b term ->
  encode (decode (firstn (Z.to_nat (available b term))
                         (encode context_paragraph)))
  = firstn (Z.to_nat (available b term)) (encode context_paragraph) ->
  tokenCount (basePrompt b term)
  + tokenCount (fst (truncate b context_paragraph term))
  <= maxTokens b.
Proof.
  intros Hpos Hpair. rewrite truncate_eq.
  destruct (tokenCount context_paragraph <=? available b term) eqn:E.
  - apply Z.leb_le in E. cbn [fst]. unfold available in *. lia.
  - apply Z.leb_gt in E. cbn [fst]. unfold slice_to.
    assert (H0 : (0 <=? available b term) = true) by now apply Z.leb_le.
    rewrite H0. unfold tokenCount at 2. rewrite Hpair, length_firstn.
    unfold available, tokenCount in *. lia.
Qed.

(** X12.  With a budget that is not negative and a tokenizer that encodes
    the decoded prefix back to the same tokens, the context the budgeter
    returns fits: its tokens and those of the base prompt together are at
    most the limit. *)
Theorem budget_is_kept (b : Budgeter) (context_paragraph term : pystr) :
  0 <= available b term ->
  encode (decode (firstn (Z.to_nat (available b term))
                         (encode context_paragraph)))
  = firstn (Z.to_nat (available b term)) (encode context_paragraph) ->
  tokenCount (basePrompt b term)
  + tokenCount (fst (truncate b context_paragraph term))
  <= maxTokens b.
Proof. exact (budget_fits b context_paragraph term). Qed.

(** X13.  Under the same conditions budgeting is idempotent: the context
    the budgeter returns comes back unchanged, with no warning, when it is
    budgeted again for the same term. *)
Theorem budgeting_twice_changes_nothing (b : Budgeter)
  (context_paragraph term : pystr) :
  0 <= available b term ->
  encode (decode (firstn (Z.to_nat (available b term))
                         (encode context_paragraph)))
  = firstn (Z.to_nat (available b term)) (encode context_paragraph) ->
  truncate b (fst (truncate b context_paragraph term)) term
  = (fst (truncate b context_paragraph term), []).
Proof.
  intros Hpos Hpair.
  pose proof (budget_fits b context_paragraph term Hpos Hpair) as Hfit.
  rewrite (truncate_eq b (fst (truncate b context_paragraph term)) term).
  assert (H : (tokenCount (fst (truncate b context_paragraph term))
               <=? available b term) = true).
  { apply Z.leb_le. unfold available. lia. }
  now rewrite H.
Qed.

(** X14.  When the base prompt alone is over the limit by [k] tokens, the
    budgeter returns the context without its last [k] tokens, and the
    decoding of no token at all when the context has at most [k]. *)
Theorem over_budget_cuts_the_excess (b : Budgeter)
  (context_paragraph term : pystr) :
  available b term < 0 ->
  fst (truncate b context_paragraph term)
  = decode (firstn (List.length (encode context_paragraph)
                    - Z.to_nat (- available b term))
                   (encode context_paragraph))
  /\ (tokenCount context_paragraph <= - available b term ->
      fst (truncate b context_paragraph term) = decode []).
Proof.
  intros Hneg. rewrite (negative_budget_truncates b _ _ Hneg). cbn [fst].
  assert (E : Z.to_nat (tokenCount context_paragraph + available b term)
              = (List.length (encode context_paragraph)
                 - Z.to_nat (- available b term))%nat).
  { unfold tokenCount. lia. }
  rewrite E. split; [reflexivity|].
  intros Hfew.
  replace (List.length (encode context_paragraph)
           - Z.to_nat (- available b term))%nat with 0%nat
    by (unfold tokenCount in Hfew; lia).
  reflexivity.
Qed.

End BudgetKept.

(* ================================================================== *)
(** ** A whole run of the script *)
(* ================================================================== *)

Section ScriptRun.
Context {tokenizer : Tokenizer} {model : LocalModel}.

Lemma script_main_unfold control_sheet target_files_map :
  Script.main control_sheet target_files_map
  = fold_left
      (fun run file =>
         Script.process_file
           (script_control_df control_sheet target_files_map)
           (fst file) (snd file) run)
      target_files_map empty_run.
Proof. reflexivity. Qed.



Lemma script_nearest_in_table df volume_no sec nearest row :
  Script.resolve df volume_no sec = inr (NearestVolume nearest row) ->
  exists r, In r df /\ no r = nearest.
Proof.
  destruct df as [|r0 df0]; [discriminate|].
  rewrite resolve_agree by discriminate. intros Hres.
  destruct (server_resolve_cases _ _ _ _ Hres) as (_ & _ & Hfirst).
  destruct Hfirst as (before & after & E & Hrow & _).
  exists row. split; [|exact Hrow].
  rewrite E. apply in_or_app. right. now left.
Qed.

Lemma no_fallback_forall (P : Event -> Prop) (events : list Event) :
  (forall e, is_fallback e = false -> P e) ->
  existsb is_fallback events = false -> Forall P events.
Proof.
  intros HP. induction events as [|e events IH]; simpl; [constructor|].
  intros H. apply orb_false_elim in H as [He Hes]. constructor; auto.
Qed.

Lemma borrowed_other volumes (e : Event) :
  is_fallback e = false -> borrowed_volume_in volumes e.
Proof. destruct e; simpl; intros H; try exact I; discriminate H. Qed.

Lemma script_events_tail_no_fallback (c term : pystr) :
  existsb is_fallback
    ([CallTruncate c term]
     ++ snd (Script.truncate_context_if_needed c term
               Script.default_max_tokens)
     ++ snd (Script.execute_translation_prompt (script_prompt c term)))
  = false.
Proof.
  rewrite !existsb_app.
  pose proof (truncate_eq (ScriptBudgeter Script.default_max_tokens) c term)
    as E. cbn [truncate] in E. rewrite E.
  unfold Script.execute_translation_prompt. cbn [snd].
  destruct (tokenCount c <=? _); destruct (4096 <? _); reflexivity.
Qed.

Lemma script_row_borrows df volume_no term sec events appended volumes :
  (forall r, In r df -> In (no r) volumes) ->
  Script.process_row df volume_no term sec = inr (events, appended) ->
  Forall (borrowed_volume_in volumes) events.
Proof.
  intros Hdf Hrow.
  destruct (blank term || blank sec) eqn:Hb.
  { unfold Script.process_row in Hrow. rewrite Hb in Hrow.
    injection Hrow as <- _. constructor. }
  apply orb_false_elim in Hb as [Ht Hs].
  destruct (Script.resolve df volume_no sec) as [e|r] eqn:Hres.
  { rewrite (script_row_raises df volume_no term sec e Ht Hs Hres) in Hrow.
    discriminate Hrow. }
  assert (Hlog : Forall (borrowed_volume_in volumes)
                        (Script.resolution_log volume_no term sec r)).
  { destruct r; repeat constructor.
    destruct (script_nearest_in_table _ _ _ _ _ Hres) as (r1 & Hin & <-).
    now apply Hdf. }
  destruct (context_row_of r) as [row|] eqn:Hr.
  - destruct (disease_content row) as [c|] eqn:Hc.
    + assert (Hp : contextParagraph r = Some c)
        by (unfold contextParagraph; now rewrite Hr).
      rewrite (script_row_translated df volume_no term sec r c Ht Hs Hres Hp)
        in Hrow.
      injection Hrow as <- _. unfold script_events.
      apply Forall_app. split; [exact Hlog|].
      apply no_fallback_forall; [apply borrowed_other|].
      apply script_events_tail_no_fallback.
    + rewrite (script_row_skipped df volume_no term sec r row Ht Hs Hres Hr Hc)
        in Hrow.
      injection Hrow as <- _.
      apply Forall_app. split; [exact Hlog | repeat constructor].
  - rewrite (script_row_unresolved df volume_no term sec r Ht Hs Hres Hr)
      in Hrow.
    injection Hrow as <- _. exact Hlog.
Qed.

Lemma script_rows_borrow df volume_no rows run volumes :
  (forall r, In r df -> In (no r) volumes) ->
  Forall (borrowed_volume_in volumes) (Script.trace run) ->
  Forall (borrowed_volume_in volumes)
         (Script.trace (Script.process_rows df volume_no rows run)).
Proof.
  intros Hdf. revert run.
  induction rows as [|[term sec] rows IH]; intros run Hrun; [exact Hrun|].
  cbn [Script.process_rows].
  destruct (Script.process_row df volume_no term sec) as [e|[events appended]]
    eqn:Hrow; [exact Hrun|].
  apply IH. cbn [Script.trace]. apply Forall_app. split; [exact Hrun|].
  eapply script_row_borrows; eauto.
Qed.

Lemma script_files_borrow df files run volumes :
  (forall r, In r df -> In (no r) volumes) ->
  Forall (borrowed_volume_in volumes) (Script.trace run) ->
  Forall (borrowed_volume_in volumes)
         (Script.trace
            (fold_left (fun run file =>
                          Script.process_file df (fst file) (snd file) run)
                       files run)).
Proof.
  intros Hdf. revert run.
  induction files as [|file files IH]; intros run Hrun; [exact Hrun|].
  cbn [fold_left]. apply IH. unfold Script.process_file.
  now apply script_rows_borrow.
Qed.

(** X15.  In a run of the script, the volume a level-2 fallback borrows its
    context from is always the volume of one of the target files: the
    control table is cut down to those volumes before any lookup. *)
Theorem script_borrows_from_target_volumes control_sheet target_files_map :
  Forall (borrowed_volume_in (map fst target_files_map))
         (Script.trace (Script.main control_sheet target_files_map)).
Proof.
  rewrite script_main_unfold. apply script_files_borrow; [|constructor].
  intros r Hr. apply filter_In in Hr as [_ Hr].
  apply existsb_exists in Hr as (v & Hv & E).
  apply Z.eqb_eq in E. now rewrite E.
Qed.

End ScriptRun.

(* ================================================================== *)
(** ** The two file modes of the server *)
(* ================================================================== *)

Section Modes.
Context {tokenizer : Tokenizer} {model : LocalModel}.
Variable config : Server.Config.

(** X16.  [process_file_translation] and
    [process_file_translation_for_merge] run the same core and fail on the
    same files.  The single-file mode writes its report exactly when a term
    was translated, with the same records; the statuses agree whenever a
    term was translated, and a file without any translation that did not
    fail is a [warning] in the single-file mode. *)
Theorem single_mode_vs_merge df volume_no target_df :
  let merged :=
    Server.process_file_translation_for_merge config df volume_no target_df in
  let single := Server.process_file_translation config df volume_no target_df in
  (Server.single_status single = Server.error
   <-> Server.status merged = Server.error)
  /\ Server.translated_terms single = List.length (Server.file_results merged)
  /\ Server.output_rows single
     = match Server.file_results merged with
       | [] => None
       | _ :: _ => Some (Server.file_results merged)
       end
  /\ (Server.file_results merged <> [] ->
      Server.single_status single = Server.status merged)
  /\ (Server.file_results merged = [] ->
      Server.status merged <> Server.error ->
      Server.single_status single = Server.warning)
  /\ Server.single_trace single = Server.file_trace merged.
Proof.
  cbn zeta.
  unfold Server.process_file_translation,
    Server.process_file_translation_for_merge.
  destruct (Server.process_file_core_translation config df volume_no target_df)
    as [[e st]|st].
  - cbn. intuition congruence.
  - cbn [Server.status Server.file_results Server.file_trace].
    destruct (Server.translation_results st) as [|r rs] eqn:Hres;
      cbn [Server.single_status Server.translated_terms Server.output_rows
           Server.single_trace List.length];
      destruct (Server.fallback_used st); intuition congruence.
Qed.

End Modes.

(* ================================================================== *)
(** ** The two lookups side by side *)
(* ================================================================== *)

(** X17.  The lookups of the two drivers give the same answer on every
    control table that has a row; they part only on the empty table, where
    the script answers that no volume is available and the server raises. *)
Theorem lookups_agree df volume_no sec :
  (df <> [] ->
   Script.resolve df volume_no sec = Server.resolve df volume_no sec)
  /\ Script.resolve [] volume_no sec = inr NoVolumes
  /\ Server.resolve [] volume_no sec = inl ValueError.
Proof.
  split; [apply resolve_agree|]. split; reflexivity.
Qed.

(* ================================================================== *)
(** ** The statements above at concrete inputs *)
(* ================================================================== *)





Lemma server_fallbacks_of_one_level_witness :
  exists st,
    @Server.process_file_core_translation char_tokenizer echo_model
      (small_config 3800) spread_table 5 [target "x" "any"; target "y" "low"]
    = inr st
    /\ Server.fallback_level1_count st = 0%nat
    /\ Server.fallback_level2_count st = 2%nat
    /\ (forall r, In r spread_table ->
          Z.abs (Server.actual_volume_used st - 5) <= Z.abs (no r - 5))
    /\ Forall (fun r => Server.rec_volume r = 5)
              (Server.translation_results st).
Proof.
  destruct (@Server.process_file_core_translation char_tokenizer echo_model
              (small_config 3800) spread_table 5
              [target "x" "any"; target "y" "low"]) as [[e st]|st] eqn:E.
  - vm_compute in E. discriminate E.
  - exists st. split; [reflexivity|].
    destruct (@server_fallbacks_of_one_level char_tokenizer echo_model
                (small_config 3800) spread_table 5
                [target "x" "any"; target "y" "low"] st E)
      as (_ & _ & _ & H1 & H2).
    assert (Hc : Server.fallback_level1_count st = 0%nat
                 /\ Server.fallback_level2_count st = 2%nat).
    { vm_compute in E. injection E as <-. split; reflexivity. }
    destruct Hc as (Hc1 & Hc2).
    split; [exact Hc1|]. split; [exact Hc2|]. split; [|exact H2].
    destruct H1 as (_ & _ & Hmin); [rewrite Hc2; lia|].
    apply Hmin. split; [reflexivity|].
    intros r [<-|[<-|[<-|[]]]]; repeat split; reflexivity.
Defined.

Lemma server_file_calls_match_results_witness :
  List.length
    (filter is_generate
       (Server.file_trace
          (@Server.process_file_translation_for_merge char_tokenizer
             echo_model (small_config 3800) intro_table 1
             [target "x" "intro"])))
  = List.length
      (Server.file_results
         (@Server.process_file_translation_for_merge char_tokenizer
            echo_model (small_config 3800) intro_table 1
            [target "x" "intro"])).
Proof.
  apply (@server_file_calls_match_results char_tokenizer echo_model
           (small_config 3800) intro_table 1 [target "x" "intro"]).
  vm_compute. discriminate.
Defined.

Lemma merged_output_never_raises_witness :
  exists name,
    Server.merged_output
      (@Server.process_all_files char_tokenizer echo_model (small_config 3800)
         intro_table [(1, [target "x" "intro"]); (4, [target "y" "intro"])])
    = Some (inr (name,
                 Server.all_translation_results
                   (@Server.process_all_files char_tokenizer echo_model
                      (small_config 3800) intro_table
                      [(1, [target "x" "intro"]); (4, [target "y" "intro"])])))
    /\ name = Server.BatchName 1 4.
Proof.
  destruct (@merged_output_never_raises char_tokenizer echo_model
              (small_config 3800) intro_table
              [(1, [target "x" "intro"]); (4, [target "y" "intro"])])
    as (_ & H).
  destruct H as (name & E & _).
  - vm_compute. discriminate.
  - exists name. split; [exact E|].
    vm_compute in E. injection E as E. symmetry. exact E.
Defined.

Lemma report_range_covers_witness :
  exists min_no max_no,
    Script.report_range [example_record 7; example_record 2; example_record 7]
    = Some (Some min_no, Some max_no)
    /\ forall r, In r [example_record 7; example_record 2; example_record 7] ->
                 min_no <= Script.rec_volume r <= max_no.
Proof.
  destruct (report_range_covers
              [example_record 7; example_record 2; example_record 7])
    as (_ & H).
  destruct H as (lo & hi & E & _ & _ & Hall); [discriminate|].
  exists lo, hi. split; [exact E | exact Hall].
Defined.

Lemma budget_is_kept_witness :
  @tokenCount char_tokenizer
     (basePrompt (ServerBudgeter (small_config 20)) (py "x"))
  + @tokenCount char_tokenizer
      (fst (@truncate char_tokenizer (ServerBudgeter (small_config 20))
              (py "123456789abcdef") (py "x")))
  <= 20.
Proof.
  apply (@budget_is_kept char_tokenizer (ServerBudgeter (small_config 20))
           (py "123456789abcdef") (py "x")).
  - vm_compute. discriminate.
  - reflexivity.
Defined.

Lemma budgeting_twice_changes_nothing_witness :
  @truncate char_tokenizer (ServerBudgeter (small_config 20))
    (fst (@truncate char_tokenizer (ServerBudgeter (small_config 20))
            (py "123456789abcdef") (py "x"))) (py "x")
  = (fst (@truncate char_tokenizer (ServerBudgeter (small_config 20))
            (py "123456789abcdef") (py "x")), []).
Proof.
  apply (@budgeting_twice_changes_nothing char_tokenizer
           (ServerBudgeter (small_config 20)) (py "123456789abcdef") (py "x")).
  - vm_compute. discriminate.
  - reflexivity.
Defined.

Lemma over_budget_cuts_the_excess_witness :
  fst (@truncate char_tokenizer (ServerBudgeter (small_config 10))
         (py "1234567") (py "long"))
  = py "12".
Proof.
  destruct (@over_budget_cuts_the_excess char_tokenizer
              (ServerBudgeter (small_config 10)) (py "1234567") (py "long"))
    as (H & _).
  - reflexivity.
  - rewrite H. reflexivity.
Defined.

Lemma single_mode_vs_merge_witness :
  Server.single_status
    (@Server.process_file_translation char_tokenizer echo_model
       (small_config 3800) intro_table 1 [target " " "intro"])
  = Server.warning
  /\ Server.status
       (@Server.process_file_translation_for_merge char_tokenizer echo_model
          (small_config 3800) intro_table 1 [target " " "intro"])
     = Server.success.
Proof.
  destruct (@single_mode_vs_merge char_tokenizer echo_model
              (small_config 3800) intro_table 1 [target " " "intro"])
    as (_ & _ & _ & _ & H & _).
  split; [apply H|]; try reflexivity. vm_compute. discriminate.
Defined.

Lemma lookups_agree_witness :
  Script.resolve tie_table 5 (py "any") = Server.resolve tie_table 5 (py "any").
Proof.
  destruct (lookups_agree tie_table 5 (py "any")) as (H & _).
  apply H. discriminate.
Defined.
